(** * BriefBot: the brief generator client and the job processor

    A shallow embedding of [src/server/openai-client.ts]
    ([callOpenAIWithRetry], [generateBriefWithAI], [calculateWordCount]),
    of [processJob] in [src/server/routes.ts] over the job store of
    [src/server/storage.ts] and the job status route [GET /api/jobs/:id],
    and of [src/server/document-parser.ts] ([getMimeTypeFromPath],
    [parseDocument], [parsePPTX], [parseCSV], [parseExcel]) with the loop
    of the upload routes that calls it.

    JavaScript strings are modelled as Stdlib [string] (ASCII); the regular
    expression class [\s] is its ASCII part (space, tab, LF, VT, FF, CR). *)

From Stdlib Require Import String Ascii List Arith Lia Bool.
Import ListNotations.
Open Scope list_scope.
Open Scope string_scope.

(** ** String helpers *)

Definition isSpace (c : ascii) : bool :=
  let n := nat_of_ascii c in
  Nat.eqb n 32 || Nat.eqb n 9 || Nat.eqb n 10 || Nat.eqb n 11 || Nat.eqb n 12
  || Nat.eqb n 13.

(** Drop a maximal run of whitespace at the front (the greedy [\s*]). *)
Fixpoint drop_ws (s : string) : string :=
  match s with
  | EmptyString => EmptyString
  | String c r => if isSpace c then drop_ws r else s
  end.

Fixpoint rev_str (s : string) : string :=
  match s with
  | EmptyString => EmptyString
  | String c r => rev_str r ++ String c EmptyString
  end.

(** [String.prototype.trim] *)
Definition trim (s : string) : string := rev_str (drop_ws (rev_str (drop_ws s))).

(** [s.split(/\s+/)]: the pieces between maximal whitespace runs. *)
Fixpoint split_ws (s : string) : list string :=
  match s with
  | EmptyString => [EmptyString]
  | String c r =>
      let rest := split_ws r in
      if isSpace c then
        match r with
        | String c' _ => if isSpace c' then rest else EmptyString :: rest
        | EmptyString => EmptyString :: rest
        end
      else match rest with
           | w :: ws => String c w :: ws
           | [] => [String c EmptyString]
           end
  end.

(** [arr.join(sep)] *)
Fixpoint join (sep : string) (l : list string) : string :=
  match l with
  | [] => EmptyString
  | [x] => x
  | x :: r => x ++ sep ++ join sep r
  end.

Fixpoint strip_prefix (p s : string) : option string :=
  match p, s with
  | EmptyString, _ => Some s
  | String a p', String b s' => if Ascii.eqb a b then strip_prefix p' s' else None
  | String _ _, EmptyString => None
  end.

(** [s.includes(p)] *)
Fixpoint includes (s p : string) : bool :=
  match strip_prefix p s with
  | Some _ => true
  | None => match s with EmptyString => false | String _ r => includes r p end
  end.

(** ASCII part of [String.prototype.toLowerCase]. *)
Definition lower_char (c : ascii) : ascii :=
  let n := nat_of_ascii c in
  if Nat.leb 65 n && Nat.leb n 90 then ascii_of_nat (n + 32) else c.

Fixpoint toLowerCase (s : string) : string :=
  match s with
  | EmptyString => EmptyString
  | String c r => String (lower_char c) (toLowerCase r)
  end.

(** Decimal rendering of a number inside a template literal. *)
Fixpoint digits_aux (fuel n : nat) (acc : string) : string :=
  match fuel with
  | 0 => acc
  | S f =>
      let acc' := String (ascii_of_nat (48 + n mod 10)) acc in
      if Nat.ltb n 10 then acc' else digits_aux f (n / 10) acc'
  end.

Definition nat_to_string (n : nat) : string := digits_aux (S n) n EmptyString.

(** ** Citation stripping: [text.replace(/\s*\[Source:[^\]]+\]/g, "")] *)

(** The tail [[^\]]+\]]: one or more non-[]] characters, then [\]]. *)
Fixpoint close_bracket (seen_one : bool) (s : string) : option string :=
  match s with
  | EmptyString => None
  | String c r =>
      if Ascii.eqb c "]"%char then (if seen_one then Some r else None)
      else close_bracket true r
  end.

(** A match of the pattern at the front of [s]; returns what follows it. *)
Definition match_cite (s : string) : option string :=
  match strip_prefix "[Source:" (drop_ws s) with
  | Some r => close_bracket false r
  | None => None
  end.

(** The global replace scans left to right; at each position it either
    deletes a match and resumes after it, or keeps one character. *)
Fixpoint remove_cite_fuel (fuel : nat) (s : string) : string :=
  match fuel with
  | 0 => s
  | S f =>
      match s with
      | EmptyString => EmptyString
      | String c r =>
          match match_cite s with
          | Some rest => remove_cite_fuel f rest
          | None => String c (remove_cite_fuel f r)
          end
      end
  end.

Definition removeCitations (s : string) : string := remove_cite_fuel (String.length s) s.

(** [text.trim().split(/\s+/).filter(w => w.length > 0).length] *)
Definition word_count (text : string) : nat :=
  length (filter (fun w => Nat.ltb 0 (String.length w)) (split_ws (trim text))).

(** ** The brief as returned by the model (after [JSON.parse] and
    [validateBriefStructure]).  A field read with [x || ""] is a [string]
    whose absent value is [""]; a field tested with [Array.isArray] and
    not validated is an [option (list _)] ([None]: not an array). *)

Record BriefOption := {
  opt_option : string;
  opt_pros : option (list string);
  opt_cons : option (list string)
}.

Record ActionItem := {
  owner : string;
  task : string;
  dueDate : string;
  action_source : option string
}.

Record Source := {
  label : string;
  filename : option string;   (* None: missing, null or undefined *)
  section : option string
}.

Record Brief := {
  goal : string;
  context : list string;
  options : list BriefOption;
  risksTradeoffs : list string;
  decisions : list string;
  actionChecklist : list ActionItem;
  sources : option (list Source)
}.

Definition set_context (l : list string) (b : Brief) : Brief :=
  {| goal := goal b; context := l; options := options b;
     risksTradeoffs := risksTradeoffs b; decisions := decisions b;
     actionChecklist := actionChecklist b; sources := sources b |}.

Definition set_sources (l : option (list Source)) (b : Brief) : Brief :=
  {| goal := goal b; context := context b; options := options b;
     risksTradeoffs := risksTradeoffs b; decisions := decisions b;
     actionChecklist := actionChecklist b; sources := l |}.

Definition opt_list (o : option (list string)) : string :=
  match o with
  | Some l => " " ++ join " " (map removeCitations l)
  | None => EmptyString
  end.

(** The text assembled by [calculateWordCount] before counting. *)
Definition word_count_text (b : Brief) : string :=
  let t0 := removeCitations (goal b) in
  let t1 := t0 ++ " " ++ join " " (map removeCitations (context b)) in
  let t2 := fold_left (fun t o =>
              t ++ " " ++ removeCitations (opt_option o)
                ++ opt_list (opt_pros o) ++ opt_list (opt_cons o))
              (options b) t1 in
  let t3 := t2 ++ " " ++ join " " (map removeCitations (risksTradeoffs b)) in
  let t4 := t3 ++ " " ++ join " " (map removeCitations (decisions b)) in
  fold_left (fun t a => t ++ " " ++ owner a ++ " " ++ task a ++ " " ++ dueDate a)
            (actionChecklist b) t4.

Definition calculateWordCount (b : Brief) : nat := word_count (word_count_text b).

(** ** Source coverage: lines 171-186 of [generateBriefWithAI] *)

Definition referenced (f : string) : Source :=
  {| label := "Referenced document"; filename := Some f; section := None |}.

(** [new Set(brief.sources.map(s => s.filename?.toLowerCase()))] *)
Definition sourced_files (l : list Source) : list (option string) :=
  map (fun s => option_map toLowerCase (filename s)) l.

Definition set_has (st : list (option string)) (x : string) : bool :=
  existsb (fun y => match y with Some y' => String.eqb y' x | None => false end) st.

Definition ensureSources (uploadedFilenames : list string) (b : Brief) : Brief :=
  let srcs := match sources b with Some l => l | None => [] end in
  let st := sourced_files srcs in
  let added := fold_left (fun acc f =>
                 if set_has st (toLowerCase f) then acc else (acc ++ [referenced f])%list)
                 uploadedFilenames [] in
  set_sources (Some (srcs ++ added)%list) b.

(** ** Word-budget truncation: lines 191-198 *)

Definition maxWords : nat := 350.

(** [while (calculateWordCount(brief) > maxWords && brief.context &&
    brief.context.length > 1) brief.context.pop()]; every iteration pops,
    so [length (context b)] bounds the iterations. *)
Fixpoint truncate_loop (fuel : nat) (b : Brief) : Brief :=
  match fuel with
  | 0 => b
  | S f =>
      if Nat.ltb maxWords (calculateWordCount b) && Nat.ltb 1 (length (context b))
      then truncate_loop f (set_context (removelast (context b)) b)
      else b
  end.

Definition truncate (b : Brief) : Brief :=
  if Nat.ltb maxWords (calculateWordCount b)
  then truncate_loop (length (context b)) b
  else b.

(** ** [callOpenAIWithRetry] *)

Definition MAX_RETRIES : nat := 3.
Definition INITIAL_DELAY_MS : nat := 1000.

(** What one call to [openai.chat.completions.create] does: it returns a
    response whose [choices[0].message.content] is [Some c] or absent, or it
    throws with a message. *)
Inductive AttemptOutcome :=
| Responded (content : option string)
| Threw (message : string).

Inductive RetryEvent :=
| Attempt (n : nat)
| Sleep (ms : nat).

Inductive result (A : Type) :=
| Ok (a : A)
| Err (message : string).
Arguments Ok {A} a.
Arguments Err {A} message.

Definition is_auth_error (m : string) : bool :=
  includes m "Invalid API key" || includes m "authentication".

Section Retry.
Variable retries : nat.
Variable outcome : nat -> AttemptOutcome.

(** Attempts [attempt], ..., [retries]; [k] counts the attempts left. *)
Fixpoint retry_loop (k attempt : nat) (lastError : option string)
  : list RetryEvent * result string :=
  match k with
  | 0 => ([], Err ("OpenAI API failed after " ++ nat_to_string retries
                   ++ " attempts: "
                   ++ match lastError with Some m => m | None => "undefined" end))
  | S k' =>
      let fail (m : string) :=
        if is_auth_error m
        then ([Attempt attempt], Err ("OpenAI authentication failed: " ++ m))
        else
          let sleeps := if Nat.ltb attempt retries
                        then [Sleep (INITIAL_DELAY_MS * 2 ^ (attempt - 1))]
                        else [] in
          let '(evs, r) := retry_loop k' (S attempt) (Some m) in
          (Attempt attempt :: sleeps ++ evs, r)%list in
      match outcome attempt with
      | Responded (Some c) =>
          if String.eqb c "" then fail "No content in OpenAI response"
          else ([Attempt attempt], Ok c)
      | Responded None => fail "No content in OpenAI response"
      | Threw m => fail m
      end
  end.

Definition callOpenAIWithRetry : list RetryEvent * result string :=
  retry_loop retries 1 None.
End Retry.

(** ** [generateBriefWithAI] *)

Record GenerateBriefParams := {
  meetingTitle : string;
  attendees : string;
  meetingType : string;
  audienceLevel : string;
  documentContents : string;
  uploadedFilenames : list string
}.

(** Outcome of [JSON.parse] followed by [validateBriefStructure]. *)
Inductive Parsed :=
| NotJSON
| BadShape
| WellFormed (b : Brief).

Record BriefOut := {
  brief : Brief;
  wordCount : nat;
  generatedAt : string
}.

Section Generate.
Variable json_parse : string -> Parsed.
Variable now_iso : string.

Definition finishBrief (p : GenerateBriefParams) (b : Brief) : BriefOut :=
  let b1 := ensureSources (uploadedFilenames p) b in
  let b2 := truncate b1 in
  {| brief := b2; wordCount := calculateWordCount b2; generatedAt := now_iso |}.

Definition generateBriefWithAI (p : GenerateBriefParams)
           (outcome : nat -> AttemptOutcome) : result BriefOut :=
  let wrap m := Err ("Failed to generate brief: " ++ m) in
  match snd (callOpenAIWithRetry MAX_RETRIES outcome) with
  | Err m => wrap m
  | Ok content =>
      match json_parse content with
      | NotJSON => wrap "Invalid JSON response from AI"
      | BadShape => wrap "AI response missing required fields"
      | WellFormed b => Ok (finishBrief p b)
      end
  end.
End Generate.

(** ** The job record ([briefJobs] in the shared schema) and the store *)

Record MeetingMetadata := {
  title : string;
  m_attendees : string;
  m_meetingType : string;
  m_audienceLevel : string
}.

Record DocContent := { dc_filename : string; dc_content : string }.
Record DocFile := { df_filename : string; df_fileType : string; df_fileSize : nat }.

(** [updatedAt]/[createdAt] stamps are left out: no claim reads them. *)
Record Job := {
  status : string;
  metadata : MeetingMetadata;
  job_documentContents : list DocContent;
  documentFiles : option (list DocFile);
  resultBriefId : option nat;
  error : option string;
  progress : option nat
}.

(** The [Partial<InsertBriefJob>] passed to [updateJob]: [None] leaves a
    column as it is. *)
Record JobPatch := {
  p_status : option string;
  p_progress : option nat;
  p_resultBriefId : option nat;
  p_error : option string
}.

Definition override {A} (o : option A) (old : A) : A :=
  match o with Some x => x | None => old end.

Definition apply_patch (p : JobPatch) (j : Job) : Job :=
  {| status := override (p_status p) (status j);
     metadata := metadata j;
     job_documentContents := job_documentContents j;
     documentFiles := documentFiles j;
     resultBriefId := match p_resultBriefId p with Some x => Some x | None => resultBriefId j end;
     error := match p_error p with Some x => Some x | None => error j end;
     progress := match p_progress p with Some x => Some x | None => progress j end |}.

Inductive Row :=
| RMeeting (id : nat) (m : MeetingMetadata)
| RBrief (id meetingId : nat) (b : BriefOut)
| RDocument (meetingId : nat) (f : DocFile)
| RAnalytic (briefId meetingId : nat).

Definition is_meeting (r : Row) : bool := match r with RMeeting _ _ => true | _ => false end.
Definition is_brief (r : Row) : bool := match r with RBrief _ _ _ => true | _ => false end.

Definition count_rows (f : Row -> bool) (l : list Row) : nat := length (filter f l).

(** The database: the job table as a function from ids, the serial for the
    next job id, the other tables as one list of rows, and [history], every
    job row as written, in the order of the writes (what a poller of
    [GET /api/jobs/:id] can observe).  [op_count] numbers the store calls
    so that any of them can be made to fail; [gen_calls] counts the calls
    of the generator. *)
Record Store := {
  jobs : nat -> option Job;
  next_job_id : nat;
  rows : list Row;
  history : list (nat * Job);
  op_count : nat;
  gen_calls : nat
}.

Definition bump (s : Store) : Store :=
  {| jobs := jobs s; next_job_id := next_job_id s; rows := rows s;
     history := history s; op_count := S (op_count s); gen_calls := gen_calls s |}.

Definition put_job (id : nat) (j : Job) (s : Store) : Store :=
  {| jobs := fun k => if Nat.eqb k id then Some j else jobs s k;
     next_job_id := next_job_id s; rows := rows s;
     history := (history s ++ [(id, j)])%list;
     op_count := op_count s; gen_calls := gen_calls s |}.

Definition add_row (r : Row) (s : Store) : Store :=
  {| jobs := jobs s; next_job_id := next_job_id s; rows := (rows s ++ [r])%list;
     history := history s; op_count := op_count s; gen_calls := gen_calls s |}.

Definition fresh_job (s : Store) : Store :=
  {| jobs := jobs s; next_job_id := S (next_job_id s); rows := rows s;
     history := history s; op_count := op_count s; gen_calls := gen_calls s |}.

Definition incr_gen (s : Store) : Store :=
  {| jobs := jobs s; next_job_id := next_job_id s; rows := rows s;
     history := history s; op_count := op_count s; gen_calls := S (gen_calls s) |}.

(** What a [throw] carries: an [Error] object or some other value. *)
Inductive Exn :=
| ErrorObj (message : string)
| NonError.

(** [error instanceof Error ? error.message : "Unknown error occurred"] *)
Definition error_message (e : Exn) : string :=
  match e with ErrorObj m => m | NonError => "Unknown error occurred" end.

Inductive Outcome (A : Type) :=
| Done (a : A)
| Raised (e : Exn).
Arguments Done {A} a.
Arguments Raised {A} e.

(** An [async] function over the store: state passing with exceptions. *)
Definition M (A : Type) : Type := Store -> Outcome A * Store.

Definition ret {A} (a : A) : M A := fun s => (Done a, s).

Definition bind {A B} (m : M A) (k : A -> M B) : M B :=
  fun s => match m s with
           | (Done a, s') => k a s'
           | (Raised e, s') => (Raised e, s')
           end.

(** [try { m } catch (e) { h(e) }] *)
Definition catch {A} (m : M A) (h : Exn -> M A) : M A :=
  fun s => match m s with
           | (Done a, s') => (Done a, s')
           | (Raised e, s') => h e s'
           end.

Notation "x <- m ;; k" := (bind m (fun x => k))
  (at level 61, m at next level, right associativity).

Section Processor.
(** [fault n]: the [n]-th store call rejects with this exception. *)
Variable fault : nat -> option Exn.
(** The generator ([generateBriefWithAI]) on the processor's arguments. *)
Variable generate : MeetingMetadata -> string -> list string -> Outcome BriefOut.

Definition store_op {A} (f : Store -> A * Store) : M A :=
  fun s => match fault (op_count s) with
           | Some e => (Raised e, bump s)
           | None => let '(a, s') := f (bump s) in (Done a, s')
           end.

Definition getJob (id : nat) : M (option Job) := store_op (fun s => (jobs s id, s)).

(** [update ... set ... where id = ... returning]: [undefined] when no row. *)
Definition updateJob (id : nat) (p : JobPatch) : M (option Job) :=
  store_op (fun s => match jobs s id with
                     | Some j => let j' := apply_patch p j in (Some j', put_job id j' s)
                     | None => (None, s)
                     end).

Definition createJob (j : Job) : M nat :=
  store_op (fun s => let id := next_job_id s in (id, put_job id j (fresh_job s))).

(** The [serial] ids of the meeting and brief tables. *)
Definition createMeeting (m : MeetingMetadata) : M nat :=
  store_op (fun s => let id := S (count_rows is_meeting (rows s)) in
                     (id, add_row (RMeeting id m) s)).

Definition createBrief (meetingId : nat) (b : BriefOut) : M nat :=
  store_op (fun s => let id := S (count_rows is_brief (rows s)) in
                     (id, add_row (RBrief id meetingId b) s)).

Definition createDocument (meetingId : nat) (f : DocFile) : M unit :=
  store_op (fun s => (tt, add_row (RDocument meetingId f) s)).

Definition createAnalytic (briefId meetingId : nat) : M unit :=
  store_op (fun s => (tt, add_row (RAnalytic briefId meetingId) s)).

(** [for (const file of documentFiles) await dbStorage.createDocument(...)] *)
Fixpoint createDocuments (meetingId : nat) (fs : list DocFile) : M unit :=
  match fs with
  | [] => ret tt
  | f :: r => _ <- createDocument meetingId f ;; createDocuments meetingId r
  end.

Definition callGenerate (m : MeetingMetadata) (combined : string) (names : list string)
  : M BriefOut :=
  fun s => (generate m combined names, incr_gen s).

Definition nl : string := String (ascii_of_nat 10) EmptyString.

Definition combineContents (docs : list DocContent) : string :=
  join (nl ++ nl) (map (fun d => "--- " ++ dc_filename d ++ " ---" ++ nl ++ dc_content d) docs).

Definition patch (st : option string) (pr : option nat) (rid : option nat)
           (err : option string) : JobPatch :=
  {| p_status := st; p_progress := pr; p_resultBriefId := rid; p_error := err |}.

(** [processJob] (routes.ts, lines 63-169). *)
Definition processJob (jobId : nat) : M unit :=
  catch
    (job <- getJob jobId ;;
     match job with
     | None => ret tt
     | Some j =>
         if negb (String.eqb (status j) "pending") then ret tt else
         _ <- updateJob jobId (patch (Some "processing") (Some 10) None None) ;;
         let docs := job_documentContents j in
         let combinedContent := combineContents docs in
         let uploadedFilenames := map dc_filename docs in
         _ <- updateJob jobId (patch None (Some 30) None None) ;;
         b <- callGenerate (metadata j) combinedContent uploadedFilenames ;;
         _ <- updateJob jobId (patch None (Some 70) None None) ;;
         meetingId <- createMeeting (metadata j) ;;
         briefId <- createBrief meetingId b ;;
         _ <- updateJob jobId (patch None (Some 85) None None) ;;
         _ <- match documentFiles j with
              | Some fs => createDocuments meetingId fs
              | None => ret tt
              end ;;
         _ <- createAnalytic briefId meetingId ;;
         _ <- updateJob jobId (patch (Some "completed") (Some 100) (Some briefId) None) ;;
         ret tt
     end)
    (fun e =>
       _ <- updateJob jobId (patch (Some "failed") None None (Some (error_message e))) ;;
       ret tt).

(** The job row the submission routes create. *)
Definition newJob (m : MeetingMetadata) (docs : list DocContent)
           (files : option (list DocFile)) : Job :=
  {| status := "pending"; metadata := m; job_documentContents := docs;
     documentFiles := files; resultBriefId := None; error := None;
     progress := Some 0 |}.

(** The tail of [POST /api/generate-brief] (and of the calendar route):
    create the job, then [processJob(job.id).catch(log)]. *)
Definition submitJob (m : MeetingMetadata) (docs : list DocContent)
           (files : option (list DocFile)) : M unit :=
  id <- createJob (newJob m docs files) ;;
  catch (processJob id) (fun _ => ret tt).
End Processor.

(** ** Header heuristics of [parseCSV] and [parseExcel] *)

Definition isDigit (c : ascii) : bool :=
  let n := nat_of_ascii c in Nat.leb 48 n && Nat.leb n 57.

Fixpoint span (p : ascii -> bool) (s : string) : nat * string :=
  match s with
  | String c r => if p c then let '(n, r') := span p r in (S n, r') else (0, s)
  | EmptyString => (0, EmptyString)
  end.

Definition is_empty (s : string) : bool :=
  match s with EmptyString => true | _ => false end.

Definition sign_char (c : ascii) : bool :=
  Ascii.eqb c "+"%char || Ascii.eqb c "-"%char.

(** An optional exponent part that ends the string. *)
Definition exponent_rest (s : string) : bool :=
  match s with
  | EmptyString => true
  | String e r =>
      (Ascii.eqb e "e"%char || Ascii.eqb e "E"%char) &&
      let r' := match r with String c r2 => if sign_char c then r2 else r | _ => r end in
      let '(n, rest) := span isDigit r' in Nat.ltb 0 n && is_empty rest
  end.

(** [StrUnsignedDecimalLiteral]: [Infinity], or digits with an optional
    fraction (at least one digit in all) and an optional exponent. *)
Definition unsigned_decimal (s : string) : bool :=
  String.eqb s "Infinity" ||
  let '(n1, r1) := span isDigit s in
  match r1 with
  | String c r2 =>
      if Ascii.eqb c "."%char
      then let '(n2, r3) := span isDigit r2 in Nat.ltb 0 (n1 + n2) && exponent_rest r3
      else Nat.ltb 0 n1 && exponent_rest r1
  | EmptyString => Nat.ltb 0 n1
  end.

Definition isHexDigit (c : ascii) : bool :=
  let n := nat_of_ascii c in
  isDigit c || (Nat.leb 65 n && Nat.leb n 70) || (Nat.leb 97 n && Nat.leb n 102).
Definition isOctDigit (c : ascii) : bool :=
  let n := nat_of_ascii c in Nat.leb 48 n && Nat.leb n 55.
Definition isBinDigit (c : ascii) : bool :=
  let n := nat_of_ascii c in Nat.eqb n 48 || Nat.eqb n 49.

Definition all_nonempty (p : ascii -> bool) (s : string) : bool :=
  let '(n, rest) := span p s in Nat.ltb 0 n && is_empty rest.

(** [0x..], [0o..], [0b..] literals. *)
Definition non_decimal (s : string) : bool :=
  match s with
  | String z (String x r) =>
      Ascii.eqb z "0"%char &&
      (if Ascii.eqb x "x"%char || Ascii.eqb x "X"%char then all_nonempty isHexDigit r
       else if Ascii.eqb x "o"%char || Ascii.eqb x "O"%char then all_nonempty isOctDigit r
       else if Ascii.eqb x "b"%char || Ascii.eqb x "B"%char then all_nonempty isBinDigit r
       else false)
  | _ => false
  end.

(** [!isNaN(Number(s))]: [s] is a [StringNumericLiteral]. *)
Definition number_not_nan (s : string) : bool :=
  let t := trim s in
  match t with
  | EmptyString => true
  | String c r => if sign_char c then unsigned_decimal r
                  else unsigned_decimal t || non_decimal t
  end.

(** [/^\d{1,2}[\/\-]\d{1,2}[\/\-]\d{2,4}$/.test(s)] *)
Definition date_sep (c : ascii) : bool := Ascii.eqb c "/"%char || Ascii.eqb c "-"%char.

Definition date_like (s : string) : bool :=
  let '(a, r1) := span isDigit s in
  match r1 with
  | String c1 r2 =>
      Nat.leb 1 a && Nat.leb a 2 && date_sep c1 &&
      let '(b, r3) := span isDigit r2 in
      match r3 with
      | String c2 r4 =>
          Nat.leb 1 b && Nat.leb b 2 && date_sep c2 &&
          let '(d, r5) := span isDigit r4 in
          Nat.leb 2 d && Nat.leb d 4 && is_empty r5
      | EmptyString => false
      end
  | EmptyString => false
  end.

(** [parseCSV]: [firstRow.some(cell => cell && isNaN(Number(cell)) && !date.test(cell))];
    [csvParse] yields string cells. *)
Definition csv_hasHeaders (firstRow : list string) : bool :=
  existsb (fun cell => negb (is_empty cell) && negb (number_not_nan cell)
                       && negb (date_like cell)) firstRow.

(** A cell of [sheet_to_json(sheet, {header: 1, defval: ""})]. *)
Inductive Cell :=
| CStr (s : string)
| CNum (n : nat)
| CBool (b : bool).

(** [parseExcel]: [cell !== undefined && cell !== null && cell !== "" &&
    typeof cell === "string" && isNaN(Number(cell))]. *)
Definition excel_hasHeaders (firstRow : list Cell) : bool :=
  existsb (fun cell => match cell with
                       | CStr s => negb (is_empty s) && negb (number_not_nan s)
                       | _ => false
                       end) firstRow.

(** ** Vocabulary of the statements *)

(** The error an attempt ends with: the thrown message, or the
    "No content" error for an absent or empty content; [None] when the
    attempt returns content. *)
Definition attempt_error (o : AttemptOutcome) : option string :=
  match o with
  | Responded (Some c) => if String.eqb c "" then Some "No content in OpenAI response" else None
  | Responded None => Some "No content in OpenAI response"
  | Threw m => Some m
  end.

(** The longest schedule of three attempts: 1s after the first, 2s after
    the second. *)
Definition full_schedule : list RetryEvent :=
  [Attempt 1; Sleep 1000; Attempt 2; Sleep 2000; Attempt 3].

Fixpoint has_char (c : ascii) (s : string) : bool :=
  match s with
  | EmptyString => false
  | String d r => Ascii.eqb c d || has_char c r
  end.









(** The writes [processJob] makes on its job, in order, on success. *)
Definition good_patches (briefId : nat) : list JobPatch :=
  [patch (Some "processing") (Some 10) None None; patch None (Some 30) None None;
   patch None (Some 70) None None; patch None (Some 85) None None;
   patch (Some "completed") (Some 100) (Some briefId) None].

Definition failed_patch (m : string) : JobPatch := patch (Some "failed") None None (Some m).

(** The successive rows of a job under a list of writes. *)
Fixpoint replay (j : Job) (ps : list JobPatch) : list Job :=
  match ps with
  | [] => []
  | p :: r => let j' := apply_patch p j in j' :: replay j' r
  end.

Definition final_job (j : Job) (ps : list JobPatch) : Job :=
  fold_left (fun j p => apply_patch p j) ps j.

(** The writes of one run: the first [k] of [good_patches], then possibly
    the [failed] write of the handler. *)
Definition trace_patches (k briefId : nat) (tail : list JobPatch) : list JobPatch :=
  (firstn k (good_patches briefId) ++ tail)%list.

(** The status/progress a poller sees at each stage of a successful run. *)
Definition expected_stages : list (string * option nat) :=
  [("pending", Some 0); ("processing", Some 10); ("processing", Some 30);
   ("processing", Some 70); ("processing", Some 85); ("completed", Some 100)].

Definition stage (j : Job) : string * option nat := (status j, progress j).

Fixpoint nondecreasing (l : list nat) : bool :=
  match l with
  | x :: ((y :: _) as r) => Nat.leb x y && nondecreasing r
  | _ => true
  end.

Definition progress_value (j : Job) : nat := match progress j with Some n => n | None => 0 end.

(** Exactly one of [resultBriefId], [error] in a terminal state, neither
    before. *)
Definition inv_job (j : Job) : Prop :=
  (status j = "completed" -> resultBriefId j <> None /\ error j = None) /\
  (status j = "failed" -> error j <> None /\ resultBriefId j = None) /\
  (status j = "pending" \/ status j = "processing" ->
     resultBriefId j = None /\ error j = None).

Definition inv_store (s : Store) : Prop :=
  (forall k j, jobs s k = Some j -> inv_job j) /\
  Forall (fun e => inv_job (snd e)) (history s).

(** ** The schedule of [callOpenAIWithRetry]: an attempt, then a sleep
    of [INITIAL_DELAY_MS * 2^(attempt-1)] before every attempt but the last *)

Fixpoint schedule_from (retries k attempt : nat) : list RetryEvent :=
  match k with
  | 0 => []
  | S k' =>
      (Attempt attempt ::
       (if Nat.ltb attempt retries
        then [Sleep (INITIAL_DELAY_MS * 2 ^ (attempt - 1))] else []) ++
       schedule_from retries k' (S attempt))%list
  end.

Definition retry_schedule (retries : nat) : list RetryEvent := schedule_from retries retries 1.

Fixpoint total_sleep (evs : list RetryEvent) : nat :=
  match evs with
  | [] => 0
  | Sleep ms :: r => ms + total_sleep r
  | Attempt _ :: r => total_sleep r
  end.

Definition non_auth_failure (o : AttemptOutcome) : Prop :=
  exists m, attempt_error o = Some m /\ is_auth_error m = false.

Definition last_error_msg (outcome : nat -> AttemptOutcome) (k attempt : nat)
    (le : option string) : string :=
  match k with
  | 0 => match le with Some m => m | None => "undefined" end
  | S _ => match attempt_error (outcome (attempt + k - 1)) with
           | Some m => m | None => "undefined" end
  end.

Fixpoint count_attempts (evs : list RetryEvent) : nat :=
  match evs with
  | [] => 0
  | Attempt _ :: r => S (count_attempts r)
  | Sleep _ :: r => count_attempts r
  end.

(** ** Word counting field by field ([calculateWordCount]) *)

Fixpoint count_starts (prev_space : bool) (s : string) : nat :=
  match s with
  | EmptyString => 0
  | String c r =>
      if isSpace c then count_starts true r
      else (if prev_space then 1 else 0) + count_starts false r
  end.

Definition starts_word (s : string) : bool :=
  match s with EmptyString => false | String c _ => negb (isSpace c) end.

Fixpoint final_space (p : bool) (s : string) : bool :=
  match s with EmptyString => p | String c r => final_space (isSpace c) r end.

Definition field_words (l : list string) : nat :=
  list_sum (map (fun x => word_count (removeCitations x)) l).

Definition opt_field_words (o : option (list string)) : nat :=
  match o with Some l => field_words l | None => 0 end.

Definition option_words (o : BriefOption) : nat :=
  word_count (removeCitations (opt_option o)) + opt_field_words (opt_pros o)
  + opt_field_words (opt_cons o).

Definition item_words (a : ActionItem) : nat :=
  word_count (owner a) + word_count (task a) + word_count (dueDate a).


(** ** The job status route [GET /api/jobs/:id] of [src/server/routes.ts] *)

Record JobView := {
  jv_id : nat;
  jv_status : string;
  jv_progress : nat;
  jv_error : option string;
  jv_resultBriefId : option nat;
  jv_createdAt : string
}.

Record BriefView := {
  bv_id : nat;
  bv_goal : string;
  bv_context : list string;
  bv_options : list BriefOption;
  bv_risksTradeoffs : list string;
  bv_decisions : list string;
  bv_actionChecklist : list ActionItem;
  bv_sources : list Source;
  bv_wordCount : nat;
  bv_generatedAt : string
}.

Inductive Response :=
| HttpError (code : nat) (message : string)
| JobStatus (job : JobView) (brief : option BriefView).

Fixpoint find_brief (id : nat) (l : list Row) : option (nat * BriefOut) :=
  match l with
  | [] => None
  | RBrief i mid b :: r => if Nat.eqb i id then Some (mid, b) else find_brief id r
  | _ :: r => find_brief id r
  end.

Section Poll.
Variable fault : nat -> option Exn.
Variable job_createdAt : nat -> string.
Variable brief_createdAt : nat -> option string.
Variable now_iso : string.

Definition getBrief (id : nat) : M (option (nat * BriefOut)) :=
  store_op fault (fun s => (find_brief id (rows s), s)).

Definition job_view (id : nat) (j : Job) : JobView :=
  {| jv_id := id; jv_status := status j;
     jv_progress := match progress j with Some n => n | None => 0 end;
     jv_error := error j; jv_resultBriefId := resultBriefId j;
     jv_createdAt := job_createdAt id |}.

Definition brief_view (id : nat) (b : BriefOut) : BriefView :=
  {| bv_id := id; bv_goal := goal (brief b); bv_context := context (brief b);
     bv_options := options (brief b); bv_risksTradeoffs := risksTradeoffs (brief b);
     bv_decisions := decisions (brief b); bv_actionChecklist := actionChecklist (brief b);
     bv_sources := match sources (brief b) with Some l => l | None => [] end;
     bv_wordCount := wordCount b;
     bv_generatedAt := match brief_createdAt id with Some t => t | None => now_iso end |}.

Definition getJobStatus (jobId : nat) : M Response :=
  catch
    (job <- getJob fault jobId ;;
     match job with
     | None => ret (HttpError 404 "Job not found")
     | Some j =>
         b <- (if String.eqb (status j) "completed" then
                 match resultBriefId j with
                 | Some (S n) =>
                     db <- getBrief (S n) ;;
                     ret (match db with
                          | Some (_, b) => Some (brief_view (S n) b)
                          | None => None
                          end)
                 | _ => ret None
                 end
               else ret None) ;;
         ret (JobStatus (job_view jobId j) b)
     end)
    (fun _ => ret (HttpError 500 "Failed to fetch job status")).
End Poll.

(** ** [src/server/document-parser.ts]: [getMimeTypeFromPath],
    [parseDocument], [parsePPTX], [parseCSV], [parseExcel], and the
    upload loop of the routes

    The file holds two versions of the module one after the other; this
    follows the second one (lines 74-249), the one with
    [getMimeTypeFromPath] and the CSV and Excel parsers. *)

(** [s.split(c)] for a one-character separator. *)
Fixpoint split_on (c : ascii) (s : string) : list string :=
  match s with
  | EmptyString => [EmptyString]
  | String a r =>
      let rest := split_on c r in
      if Ascii.eqb a c then EmptyString :: rest
      else match rest with
           | w :: ws => String a w :: ws
           | [] => [String a EmptyString]
           end
  end.

(** [arr.pop()]: the last element, [undefined] for an empty array. *)
Definition pop_last (l : list string) : option string :=
  match rev l with x :: _ => Some x | [] => None end.

(** A property read on the object literal [mimeMap]: its eight own keys,
    and the two all-lower-case members every object inherits from
    [Object.prototype] ([constructor], the [Object] function, and
    [__proto__], [Object.prototype] itself); other keys are [undefined]. *)
Inductive MimeValue :=
| MimeStr (s : string)
| ObjectConstructor
| ObjectPrototype.

Definition mimeMap (k : string) : option MimeValue :=
  if String.eqb k "pdf" then Some (MimeStr "application/pdf")
  else if String.eqb k "docx" then
    Some (MimeStr "application/vnd.openxmlformats-officedocument.wordprocessingml.document")
  else if String.eqb k "pptx" then
    Some (MimeStr "application/vnd.openxmlformats-officedocument.presentationml.presentation")
  else if String.eqb k "txt" then Some (MimeStr "text/plain")
  else if String.eqb k "csv" then Some (MimeStr "text/csv")
  else if String.eqb k "md" then Some (MimeStr "text/markdown")
  else if String.eqb k "xls" then Some (MimeStr "application/vnd.ms-excel")
  else if String.eqb k "xlsx" then
    Some (MimeStr "application/vnd.openxmlformats-officedocument.spreadsheetml.sheet")
  else if String.eqb k "constructor" then Some ObjectConstructor
  else if String.eqb k "__proto__" then Some ObjectPrototype
  else None.

(** [String(v)] inside a template literal. *)
Definition mime_text (v : MimeValue) : string :=
  match v with
  | MimeStr s => s
  | ObjectConstructor => "function Object() { [native code] }"
  | ObjectPrototype => "[object Object]"
  end.

Definition getMimeTypeFromPath (filePath providedMimeType : string) : MimeValue :=
  if negb (String.eqb providedMimeType "")
     && negb (String.eqb providedMimeType "application/octet-stream")
  then MimeStr providedMimeType
  else
    let ext := pop_last (split_on "."%char (toLowerCase filePath)) in
    match mimeMap (match ext with Some e => e | None => "" end) with
    | Some v => v
    | None => MimeStr providedMimeType
    end.

Fixpoint mapi_from {A B} (f : nat -> A -> B) (i : nat) (l : list A) : list B :=
  match l with
  | [] => []
  | x :: r => f i x :: mapi_from f (S i) r
  end.

Fixpoint concat_all (l : list string) : string :=
  match l with
  | [] => EmptyString
  | x :: r => x ++ concat_all r
  end.

Definition column_name (i : nat) : string := "Column " ++ nat_to_string (i + 1).

(** One [Row n:] block: a line per header whose cell is defined. *)
Definition row_text {A} (show : A -> string) (headers : list string) (index : nat)
    (row : list A) : string :=
  "Row " ++ nat_to_string (index + 1) ++ ":" ++ nl ++
  concat_all (mapi_from (fun colIndex header =>
                match nth_error row colIndex with
                | Some value => "  " ++ header ++ ": " ++ show value ++ nl
                | None => EmptyString
                end) 0 headers) ++ nl.

Definition csv_headers (firstRow : list string) : list string :=
  if csv_hasHeaders firstRow
  then mapi_from (fun i h => if String.eqb h "" then column_name i else h) 0 firstRow
  else mapi_from (fun i _ => column_name i) 0 firstRow.

Definition csv_dataRows (rawRecords : list (list string)) : list (list string) :=
  match rawRecords with
  | firstRow :: rest => if csv_hasHeaders firstRow then rest else rawRecords
  | [] => []
  end.

(** The text [parseCSV] builds from the records of [csvParse]. *)
Definition csv_text (rawRecords : list (list string)) : string :=
  match rawRecords with
  | [] => "Empty CSV file"
  | firstRow :: _ =>
      let headers := csv_headers firstRow in
      let dataRows := csv_dataRows rawRecords in
      "CSV Data (" ++ nat_to_string (length dataRows) ++ " rows):" ++ nl ++
      "Columns: " ++ join ", " headers ++ nl ++ nl ++
      concat_all (mapi_from (row_text (fun v => v) headers) 0 dataRows)
  end.

(** [`${value}`] of a cell. *)
Definition cell_text (c : Cell) : string :=
  match c with
  | CStr s => s
  | CNum n => nat_to_string n
  | CBool b => if b then "true" else "false"
  end.

(** [h !== undefined && h !== null && h !== ""] *)
Definition cell_present (c : Cell) : bool :=
  match c with CStr s => negb (String.eqb s "") | _ => true end.

Definition excel_headers (firstRow : list Cell) : list string :=
  if excel_hasHeaders firstRow
  then mapi_from (fun i h => if cell_present h then cell_text h else column_name i) 0 firstRow
  else mapi_from (fun i _ => column_name i) 0 firstRow.

Definition excel_rows (jsonData : list (list Cell)) : list (list Cell) :=
  match jsonData with
  | firstRow :: rest => if excel_hasHeaders firstRow then rest else jsonData
  | [] => []
  end.

Fixpoint repeat_str (n : nat) (s : string) : string :=
  match n with 0 => EmptyString | S k => s ++ repeat_str k s end.

(** What one iteration of [workbook.SheetNames.forEach] appends. *)
Definition sheet_text (sheetCount sheetIndex : nat) (sheet : string * list (list Cell))
  : string :=
  let '(sheetName, jsonData) := sheet in
  match jsonData with
  | [] => EmptyString
  | firstRow :: _ =>
      let headers := excel_headers firstRow in
      let rows := excel_rows jsonData in
      "Sheet: " ++ sheetName ++ nl ++ repeat_str 40 "=" ++ nl ++
      (if Nat.ltb 0 (length headers)
       then "Columns: " ++ join ", " headers ++ nl ++ nl ++
            concat_all (mapi_from (row_text cell_text headers) 0 rows)
       else EmptyString) ++
      (if Nat.ltb sheetIndex (sheetCount - 1) then nl else EmptyString)
  end.

(** The text [parseExcel] builds from the workbook's sheets, in order. *)
Definition excel_text (sheets : list (string * list (list Cell))) : string :=
  let text := concat_all (mapi_from (sheet_text (length sheets)) 0 sheets) in
  if String.eqb text "" then "Empty spreadsheet" else text.

(** A [multer] file of [req.files]. *)
Record UploadedFile := {
  originalname : string;
  path : string;
  mimetype : string;
  size : nat
}.

Section Parser.
(** [fs.readFileSync(filePath, "utf-8")] *)
Variable readFileText : string -> Outcome string.
(** [pdfParse(fs.readFileSync(filePath))], its [text] *)
Variable pdfText : string -> Outcome string.
(** [mammoth.extractRawText({ path })], its [value] *)
Variable extractRawText : string -> Outcome string.
(** [csvParse(content, {skip_empty_lines, trim, relax_column_count})] *)
Variable csvParse : string -> Outcome (list (list string)).
(** [XLSX.readFile] and [sheet_to_json(sheet, {header: 1, defval: ""})] of
    every sheet, in [SheetNames] order *)
Variable readWorkbook : string -> Outcome (list (string * list (list Cell))).

Definition parsePPTX (filePath : string) : Outcome string :=
  match extractRawText filePath with
  | Done v => Done v
  | Raised _ => readFileText filePath
  end.

Definition parseCSV (filePath : string) : Outcome string :=
  match readFileText filePath with
  | Raised e => Raised e
  | Done content =>
      match csvParse content with
      | Raised e => Raised e
      | Done rawRecords => Done (csv_text rawRecords)
      end
  end.

Definition parseExcel (filePath : string) : Outcome string :=
  match readWorkbook filePath with
  | Raised e => Raised e
  | Done sheets => Done (excel_text sheets)
  end.

Definition parseDocument (filePath mimeType : string) : Outcome string :=
  let resolvedMimeType := getMimeTypeFromPath filePath mimeType in
  let body :=
    match resolvedMimeType with
    | MimeStr t =>
        if String.eqb t "application/pdf" then pdfText filePath
        else if String.eqb t
          "application/vnd.openxmlformats-officedocument.wordprocessingml.document"
        then extractRawText filePath
        else if String.eqb t
          "application/vnd.openxmlformats-officedocument.presentationml.presentation"
        then parsePPTX filePath
        else if String.eqb t "text/plain" || String.eqb t "text/markdown"
        then readFileText filePath
        else if String.eqb t "text/csv" then parseCSV filePath
        else if String.eqb t "application/vnd.ms-excel" || String.eqb t
          "application/vnd.openxmlformats-officedocument.spreadsheetml.sheet"
        then parseExcel filePath
        else Raised (ErrorObj ("Unsupported file type: " ++ t))
    | v => Raised (ErrorObj ("Unsupported file type: " ++ mime_text v))
    end in
  match body with
  | Done s => Done s
  | Raised e =>
      Raised (ErrorObj ("Failed to parse document: " ++
                        match e with ErrorObj m => m | NonError => "Unknown error" end))
  end.

(** The loop of the upload routes: every file is parsed, a file that fails
    is skipped, a parsed one adds its trimmed text and its file record. *)
Definition parseUploads (files : list UploadedFile) : list DocContent * list DocFile :=
  fold_left (fun acc file =>
               let '(documentContents, documentFiles) := acc in
               match parseDocument (path file) (mimetype file) with
               | Done content =>
                   ((documentContents ++ [{| dc_filename := originalname file;
                                             dc_content := trim content |}])%list,
                    (documentFiles ++ [{| df_filename := originalname file;
                                          df_fileType := mimetype file;
                                          df_fileSize := size file |}])%list)
               | Raised _ => acc
               end) files ([], []).
End Parser.

(** [allowedTypes] of the upload filter (routes.ts). *)
Definition allowedTypes : list string :=
  ["application/pdf";
   "application/vnd.openxmlformats-officedocument.wordprocessingml.document";
   "application/vnd.openxmlformats-officedocument.presentationml.presentation";
   "text/plain"; "text/csv"; "text/markdown"; "application/vnd.ms-excel";
   "application/vnd.openxmlformats-officedocument.spreadsheetml.sheet"].

Definition contains (s t : string) : Prop := exists a b, s = a ++ t ++ b.

(** ** Sample inputs *)

Fixpoint repeat_words (n : nat) : string :=
  match n with 0 => EmptyString | S k => "w " ++ repeat_words k end.

(** A model answer whose goal alone has 351 words. *)
Definition long_goal_brief : Brief :=
  {| goal := repeat_words 351; context := ["Launch slips a week [Source: plan.txt]"];
     options := []; risksTradeoffs := []; decisions := []; actionChecklist := [];
     sources := Some [{| label := "Plan"; filename := Some "PLAN.txt"; section := None |}] |}.

(** A model answer of 370 words: a 320-word goal and context bullets of
    10, 10, 15 and 15 words. *)
Definition multi_bullet_brief : Brief :=
  {| goal := repeat_words 320;
     context := [repeat_words 10; repeat_words 10; repeat_words 15; repeat_words 15];
     options := []; risksTradeoffs := []; decisions := []; actionChecklist := [];
     sources := None |}.


Definition sample_params : GenerateBriefParams :=
  {| meetingTitle := "Launch Review"; attendees := "A, B"; meetingType := "review";
     audienceLevel := "ic"; documentContents := "--- plan.txt ---";
     uploadedFilenames := ["plan.txt"; "notes.md"] |}.

Definition answers_json : nat -> AttemptOutcome := fun _ => Responded (Some "{...}").

Definition parse_as (b : Brief) : string -> Parsed := fun _ => WellFormed b.

Definition empty_brief : Brief :=
  {| goal := "Decide the launch date"; context := []; options := []; risksTradeoffs := [];
     decisions := []; actionChecklist := []; sources := None |}.


Definition sample_meta : MeetingMetadata :=
  {| title := "Launch Review"; m_attendees := "A, B"; m_meetingType := "review";
     m_audienceLevel := "ic" |}.

Definition sample_docs : list DocContent :=
  [{| dc_filename := "plan.txt"; dc_content := "Ship on May 1." |}].

Definition completed_job : Job :=
  {| status := "completed"; metadata := sample_meta; job_documentContents := sample_docs;
     documentFiles := None; resultBriefId := Some 1; error := None; progress := Some 100 |}.

(** A store holding job 1, already completed with brief 1. *)
Definition store_completed : Store :=
  {| jobs := fun k => if Nat.eqb k 1 then Some completed_job else None;
     next_job_id := 2; rows := []; history := [(1, completed_job)];
     op_count := 0; gen_calls := 0 |}.

Definition empty_store : Store :=
  {| jobs := fun _ => None; next_job_id := 1; rows := []; history := [];
     op_count := 0; gen_calls := 0 |}.

Definition no_fault : nat -> option Exn := fun _ => None.

(** The first store call (the lookup) rejects. *)
Definition lookup_fault : nat -> option Exn :=
  fun n => if Nat.eqb n 0 then Some (ErrorObj "Connection terminated") else None.

Definition sample_out : BriefOut :=
  {| brief := empty_brief; wordCount := 4; generatedAt := "2026-10-14T00:00:00Z" |}.

Definition gen_ok : MeetingMetadata -> string -> list string -> Outcome BriefOut :=
  fun _ _ _ => Done sample_out.

Definition flaky_outcome (n : nat) : AttemptOutcome :=
  if Nat.eqb n 1 then Threw "socket hang up" else Responded (Some "{}").

Definition auth_outcome (n : nat) : AttemptOutcome :=
  if Nat.eqb n 1 then Threw "Request timed out" else Threw "401 Invalid API key".

Definition gen_fail : MeetingMetadata -> string -> list string -> Outcome BriefOut :=
  fun _ _ _ => Raised (ErrorObj "Failed to generate brief: Invalid JSON response from AI").

Definition plan_file : DocFile :=
  {| df_filename := "plan.txt"; df_fileType := "text/plain"; df_fileSize := 14 |}.

(** A store holding job 1, pending, with one uploaded document. *)
Definition store_pending : Store :=
  {| jobs := fun k => if Nat.eqb k 1
                      then Some (newJob sample_meta sample_docs (Some [plan_file])) else None;
     next_job_id := 2; rows := []; history := []; op_count := 0; gen_calls := 0 |}.

Definition job_stamp (_ : nat) : string := "2026-10-14T09:00:00.000Z".
Definition brief_stamp (_ : nat) : option string := Some "2026-10-14T09:00:05.000Z".

Definition read_ok : string -> Outcome string := fun _ => Done "Ship on May 1.".
Definition csv_none : string -> Outcome (list (list string)) := fun _ => Done [].
Definition book_none : string -> Outcome (list (string * list (list Cell))) := fun _ => Done [].
Definition mammoth_fails : string -> Outcome string :=
  fun _ => Raised (ErrorObj "Could not find the body element").

Definition stock_sheets : list (string * list (list Cell)) :=
  [("Stock", [[CStr "item"; CStr "count"]; [CStr "bolts"; CNum 0]])].

(** ** Properties of the generator *)

Lemma set_context_id (b : Brief) : set_context (context b) b = b.
Proof. destruct b; reflexivity. Qed.

Lemma set_context_twice (l1 l2 : list string) (b : Brief) :
  set_context l1 (set_context l2 b) = set_context l1 b.
Proof. reflexivity. Qed.

Lemma firstn_removelast_le {A} (k : nat) (l : list A) :
  k <= length l - 1 -> firstn k (removelast l) = firstn k l.
Proof.
  intros Hk. rewrite removelast_firstn_len, firstn_firstn.
  f_equal. lia.
Qed.

(** The loop keeps a prefix of the context: it pops only while over budget
    with at least two bullets, and stops at the first prefix that is not. *)
Lemma truncate_loop_spec (fuel : nat) (b : Brief) :
  length (context b) <= fuel ->
  exists k, k <= length (context b) /\
    truncate_loop fuel b = set_context (firstn k (context b)) b /\
    (context b <> [] -> 1 <= k) /\
    (calculateWordCount (truncate_loop fuel b) <= maxWords \/ k <= 1) /\
    (forall j, k < j <= length (context b) ->
       maxWords < calculateWordCount (set_context (firstn j (context b)) b) /\ 1 < j).
Proof.
  revert b; induction fuel as [|f IH]; intros b Hlen.
  - exists 0. simpl. assert (length (context b) = 0) as H0 by lia.
    apply length_zero_iff_nil in H0.
    rewrite H0. simpl. rewrite <- H0, set_context_id.
    split; [lia|split; [reflexivity|split; [|split]]].
    + intros Hne. contradiction.
    + right; lia.
    + intros j Hj'. lia.
  - simpl.
    destruct (Nat.ltb maxWords (calculateWordCount b) && Nat.ltb 1 (length (context b)))
      eqn:Hc.
    + apply andb_true_iff in Hc as [Hw Hl].
      apply Nat.ltb_lt in Hw, Hl.
      set (b1 := set_context (removelast (context b)) b).
      assert (Hl1 : length (context b1) = length (context b) - 1).
      { unfold b1; simpl. rewrite removelast_firstn_len, length_firstn. lia. }
      destruct (IH b1) as (k & Hk & Heq & Hne & Hw' & Hj); [lia|].
      rewrite Hl1 in Hk.
      exists k. rewrite Heq. unfold b1 at 2. rewrite set_context_twice.
      assert (Hfk : firstn k (context b1) = firstn k (context b)).
      { unfold b1; simpl. apply firstn_removelast_le. lia. }
      rewrite Hfk. split; [|split; [reflexivity|split; [|split]]].
      * lia.
      * intros _. apply Hne. intros Hn. apply length_zero_iff_nil in Hn. lia.
      * rewrite Heq, Hfk in Hw'. unfold b1 in Hw'. rewrite set_context_twice in Hw'.
        exact Hw'.
      * intros j Hj'. destruct (Nat.eq_dec j (length (context b))) as [->|Hne'].
        -- rewrite firstn_all, set_context_id. lia.
        -- destruct (Hj j) as [Hj1 Hj2]; [lia|].
           unfold b1 in Hj1. simpl in Hj1. rewrite firstn_removelast_le in Hj1 by lia.
           rewrite set_context_twice in Hj1. split; [exact Hj1|lia].
    + exists (length (context b)). rewrite firstn_all, set_context_id.
      apply andb_false_iff in Hc.
      split; [lia|split; [reflexivity|split; [|split]]].
      * intros Hne. destruct (context b); [contradiction|simpl; lia].
      * destruct Hc as [Hc|Hc]; apply Nat.ltb_ge in Hc; [left|right]; exact Hc.
      * intros j Hj'. lia.
Qed.

Lemma truncate_spec (b : Brief) :
  exists k, k <= length (context b) /\
    truncate b = set_context (firstn k (context b)) b /\
    (context b <> [] -> 1 <= k) /\
    (calculateWordCount (truncate b) <= maxWords \/ k <= 1) /\
    (forall j, k < j <= length (context b) ->
       maxWords < calculateWordCount (set_context (firstn j (context b)) b) /\ 1 < j).
Proof.
  unfold truncate. destruct (Nat.ltb maxWords (calculateWordCount b)) eqn:Hw.
  - apply truncate_loop_spec. lia.
  - exists (length (context b)). rewrite firstn_all, set_context_id.
    apply Nat.ltb_ge in Hw. split; [lia|split; [reflexivity|split; [|split]]].
    + intros Hne. destruct (context b); [contradiction|simpl; lia].
    + left; exact Hw.
    + intros j Hj'. lia.
Qed.

Lemma generate_ok_inv (json_parse : string -> Parsed) (now_iso : string)
      (p : GenerateBriefParams) (outcome : nat -> AttemptOutcome) (out : BriefOut) :
  generateBriefWithAI json_parse now_iso p outcome = Ok out ->
  exists b, out = finishBrief now_iso p b.
Proof.
  unfold generateBriefWithAI.
  destruct (snd (callOpenAIWithRetry MAX_RETRIES outcome)) as [c|m]; [|discriminate].
  destruct (json_parse c) as [| |b]; try discriminate.
  intros H. injection H as <-. exists b. reflexivity.
Qed.

Lemma finishBrief_brief (now_iso : string) (p : GenerateBriefParams) (b : Brief) :
  brief (finishBrief now_iso p b) = truncate (ensureSources (uploadedFilenames p) b) /\
  wordCount (finishBrief now_iso p b) = calculateWordCount (brief (finishBrief now_iso p b)).
Proof. split; reflexivity. Qed.

Lemma fold_added_spec (st : list (option string)) (names : list string)
      (acc : list Source) :
  let r := fold_left (fun acc f => if set_has st (toLowerCase f) then acc
                                   else (acc ++ [referenced f])%list) names acc in
  (exists added, r = (acc ++ added)%list /\
     Forall (fun s => label s = "Referenced document" /\ section s = None /\
                      exists f, In f names /\ filename s = Some f) added) /\
  (forall f, In f names -> set_has st (toLowerCase f) = false -> In (referenced f) r).
Proof.
  revert acc; induction names as [|f0 names IH]; intros acc; simpl.
  - split; [exists []; rewrite app_nil_r; split; [reflexivity|constructor]|].
    intros f [].
  - destruct (set_has st (toLowerCase f0)) eqn:Hh.
    + destruct (IH acc) as [(added & Hr & Hf) Hin]. split.
      * exists added. split; [exact Hr|].
        eapply Forall_impl; [|exact Hf]. simpl.
        intros s (H1 & H2 & f & Hf' & H3). split; [exact H1|split; [exact H2|]].
        exists f. split; [right; exact Hf'|exact H3].
      * intros f [<-|Hf'] Hnh; [congruence|]. apply Hin; assumption.
    + destruct (IH (acc ++ [referenced f0])%list) as [(added & Hr & Hf) Hin]. split.
      * exists (referenced f0 :: added). rewrite Hr, <- app_assoc. split; [reflexivity|].
        constructor.
        -- simpl. split; [reflexivity|split; [reflexivity|]].
           exists f0. split; [left; reflexivity|reflexivity].
        -- eapply Forall_impl; [|exact Hf]. simpl.
           intros s (H1 & H2 & f & Hf' & H3). split; [exact H1|split; [exact H2|]].
           exists f. split; [right; exact Hf'|exact H3].
      * intros f [<-|Hf'] Hnh.
        -- rewrite Hr. apply in_or_app. left. apply in_or_app. right. left. reflexivity.
        -- apply Hin; assumption.
Qed.

Lemma set_has_sourced (srcs : list Source) (x : string) :
  set_has (sourced_files srcs) x = true ->
  exists s g, In s srcs /\ filename s = Some g /\ toLowerCase g = x.
Proof.
  unfold set_has, sourced_files. intros H.
  apply existsb_exists in H as (y & Hy & Heq).
  apply in_map_iff in Hy as (s & <- & Hs).
  destruct (filename s) as [g|] eqn:Hg; simpl in Heq; [|discriminate].
  apply String.eqb_eq in Heq. exists s, g. auto.
Qed.

Lemma ensureSources_spec (names : list string) (b : Brief) :
  let srcs := match sources b with Some l => l | None => [] end in
  exists added,
    ensureSources names b = set_sources (Some (srcs ++ added)%list) b /\
    Forall (fun s => label s = "Referenced document" /\ section s = None /\
                     exists f, In f names /\ filename s = Some f) added /\
    (forall f, In f names -> exists s g, In s (srcs ++ added)%list /\
                 filename s = Some g /\ toLowerCase g = toLowerCase f).
Proof.
  intros srcs. unfold ensureSources. fold srcs.
  destruct (fold_added_spec (sourced_files srcs) names []) as [(added & Hr & Hf) Hin].
  exists added. rewrite Hr. simpl. split; [reflexivity|split; [exact Hf|]].
  intros f Hfn. destruct (set_has (sourced_files srcs) (toLowerCase f)) eqn:Hh.
  - destruct (set_has_sourced srcs _ Hh) as (s & g & Hs & Hg & Hl).
    exists s, g. split; [apply in_or_app; left; exact Hs|auto].
  - specialize (Hin f Hfn Hh). rewrite Hr in Hin. simpl in Hin.
    exists (referenced f), f. split; [apply in_or_app; right; exact Hin|auto].
Qed.

(** C1 (counterexample): the model's goal alone is 351 words; truncation
    only pops context bullets and keeps the last one, so the returned
    [wordCount] is above 350. *)
Lemma C1_wordCount_exceeds_max :
  match generateBriefWithAI (parse_as long_goal_brief) "2026-10-14T00:00:00Z"
          sample_params answers_json with
  | Ok out => Nat.ltb maxWords (wordCount out) && Nat.eqb (length (context (brief out))) 1
  | Err _ => false
  end = true.
Proof. vm_compute. reflexivity. Qed.

(** C1 (amended): the [wordCount] attached to a returned brief is the word
    count of the returned brief, and it is at most 350 unless truncation
    has stopped at a context of at most one bullet. *)
Theorem C1_wordCount_bounded_or_one_bullet
        (json_parse : string -> Parsed) (now_iso : string)
        (p : GenerateBriefParams) (outcome : nat -> AttemptOutcome) (out : BriefOut) :
  generateBriefWithAI json_parse now_iso p outcome = Ok out ->
  wordCount out = calculateWordCount (brief out) /\
  (wordCount out <= maxWords \/ length (context (brief out)) <= 1).
Proof.
  intros H. apply generate_ok_inv in H as (b & ->).
  destruct (finishBrief_brief now_iso p b) as [Hb Hw].
  split; [exact Hw|]. rewrite Hw, Hb.
  destruct (truncate_spec (ensureSources (uploadedFilenames p) b))
    as (k & Hk & Heq & _ & Hwc & _).
  destruct Hwc as [Hwc|Hwc]; [left; exact Hwc|right].
  rewrite Heq. simpl. rewrite length_firstn. lia.
Qed.

Lemma C1_wordCount_bounded_or_one_bullet_witness :
  generateBriefWithAI (parse_as long_goal_brief) "2026-10-14T00:00:00Z"
    sample_params answers_json
  = Ok (finishBrief "2026-10-14T00:00:00Z" sample_params long_goal_brief) /\
  (wordCount (finishBrief "2026-10-14T00:00:00Z" sample_params long_goal_brief) =
   calculateWordCount (brief (finishBrief "2026-10-14T00:00:00Z" sample_params long_goal_brief)) /\
   (wordCount (finishBrief "2026-10-14T00:00:00Z" sample_params long_goal_brief) <= maxWords \/
    length (context (brief (finishBrief "2026-10-14T00:00:00Z" sample_params long_goal_brief))) <= 1)).
Proof.
  split; [reflexivity|].
  apply (C1_wordCount_bounded_or_one_bullet (parse_as long_goal_brief) "2026-10-14T00:00:00Z"
           sample_params answers_json). reflexivity.
Defined.

(** C2: the truncation in [generateBriefWithAI] leaves a prefix of the
    model's context (bullets are popped from the end), never empties a
    non-empty context, ends at or under 350 words unless one bullet is
    left, and every longer prefix it went through was over budget with at
    least two bullets (it stops as soon as it is at or under budget). *)
Theorem C2_truncation_pops_until_budget
        (json_parse : string -> Parsed) (now_iso : string)
        (p : GenerateBriefParams) (outcome : nat -> AttemptOutcome)
        (c : string) (b : Brief) :
  snd (callOpenAIWithRetry MAX_RETRIES outcome) = Ok c ->
  json_parse c = WellFormed b ->
  let b1 := ensureSources (uploadedFilenames p) b in
  exists out k,
    generateBriefWithAI json_parse now_iso p outcome = Ok out /\
    k <= length (context b) /\
    brief out = set_context (firstn k (context b)) b1 /\
    (context b <> [] -> context (brief out) <> []) /\
    (calculateWordCount (brief out) <= maxWords \/ k <= 1) /\
    (forall j, k < j <= length (context b) ->
       maxWords < calculateWordCount (set_context (firstn j (context b)) b1) /\ 1 < j).
Proof.
  intros Hc Hp b1.
  exists (finishBrief now_iso p b).
  assert (Hctx : context b1 = context b).
  { unfold b1, ensureSources. reflexivity. }
  destruct (truncate_spec b1) as (k & Hk & Heq & Hne & Hwc & Hj).
  rewrite Hctx in Hk, Heq, Hne, Hj.
  exists k. split.
  { unfold generateBriefWithAI. rewrite Hc, Hp. reflexivity. }
  split; [exact Hk|]. split; [exact Heq|]. split.
  - intros Hb. change (brief (finishBrief now_iso p b)) with (truncate b1).
    rewrite Heq. simpl. intros Hf.
    specialize (Hne Hb). destruct k; [lia|].
    destruct (context b); [contradiction|discriminate].
  - split; [|exact Hj]. change (brief (finishBrief now_iso p b)) with (truncate b1).
    destruct Hwc as [Hwc|Hwc]; [left; exact Hwc|right; exact Hwc].
Qed.

Lemma C2_truncation_pops_until_budget_witness :
  exists out k,
    generateBriefWithAI (parse_as multi_bullet_brief) "now" sample_params answers_json
      = Ok out /\
    k = 2 /\ length (context multi_bullet_brief) = 4 /\
    calculateWordCount multi_bullet_brief = 370 /\
    calculateWordCount (brief out) = 340 /\
    brief out = set_context (firstn k (context multi_bullet_brief))
                  (ensureSources (uploadedFilenames sample_params) multi_bullet_brief) /\
    (forall j, k < j <= length (context multi_bullet_brief) ->
       maxWords < calculateWordCount
                    (set_context (firstn j (context multi_bullet_brief))
                       (ensureSources (uploadedFilenames sample_params) multi_bullet_brief))
       /\ 1 < j).
Proof.
  destruct (C2_truncation_pops_until_budget (parse_as multi_bullet_brief) "now"
              sample_params answers_json "{...}" multi_bullet_brief eq_refl eq_refl)
    as (out & k & Hg & Hk & Hb & _ & _ & Hj).
  assert (E : generateBriefWithAI (parse_as multi_bullet_brief) "now" sample_params
                answers_json = Ok (finishBrief "now" sample_params multi_bullet_brief))
    by reflexivity.
  rewrite E in Hg. injection Hg as Ho. subst out.
  assert (L : length (context (brief (finishBrief "now" sample_params multi_bullet_brief)))
              = 2) by (vm_compute; reflexivity).
  rewrite Hb in L. cbn [context set_context] in L. rewrite length_firstn in L.
  change (length (context multi_bullet_brief)) with 4 in L, Hk.
  assert (Hk2 : k = 2) by lia.
  exists (finishBrief "now" sample_params multi_bullet_brief), k.
  split; [exact E|]. split; [exact Hk2|]. split; [reflexivity|].
  split; [vm_compute; reflexivity|]. split; [vm_compute; reflexivity|].
  split; [exact Hb|exact Hj].
Defined.

(** C3: every uploaded filename has, in the returned sources, an entry
    whose filename equals it after [toLowerCase]. *)
Theorem C3_sources_cover_uploads
        (json_parse : string -> Parsed) (now_iso : string)
        (p : GenerateBriefParams) (outcome : nat -> AttemptOutcome) (out : BriefOut) :
  generateBriefWithAI json_parse now_iso p outcome = Ok out ->
  exists srcs, sources (brief out) = Some srcs /\
    forall f, In f (uploadedFilenames p) ->
      exists s g, In s srcs /\ filename s = Some g /\ toLowerCase g = toLowerCase f.
Proof.
  intros H. apply generate_ok_inv in H as (b & ->).
  rewrite (proj1 (finishBrief_brief now_iso p b)).
  destruct (ensureSources_spec (uploadedFilenames p) b) as (added & Heq & _ & Hcov).
  destruct (truncate_spec (ensureSources (uploadedFilenames p) b)) as (k & _ & Ht & _).
  rewrite Ht, Heq. simpl.
  eexists. split; [reflexivity|]. exact Hcov.
Qed.

Lemma C3_sources_cover_uploads_witness :
  exists srcs,
    sources (brief (finishBrief "now" sample_params long_goal_brief)) = Some srcs /\
    forall f, In f (uploadedFilenames sample_params) ->
      exists s g, In s srcs /\ filename s = Some g /\ toLowerCase g = toLowerCase f.
Proof.
  apply (C3_sources_cover_uploads (parse_as long_goal_brief) "now" sample_params answers_json).
  reflexivity.
Defined.

(** C10: the coverage step only appends: the model's source list is a
    prefix of the returned one (entries unchanged, in place), the appended
    entries are "Referenced document" entries for uploaded filenames, and
    goal, options, risksTradeoffs, decisions and actionChecklist come back
    unchanged while context is the model's context before truncation. *)
Theorem C10_coverage_only_appends
        (json_parse : string -> Parsed) (now_iso : string)
        (p : GenerateBriefParams) (outcome : nat -> AttemptOutcome)
        (c : string) (b : Brief) :
  snd (callOpenAIWithRetry MAX_RETRIES outcome) = Ok c ->
  json_parse c = WellFormed b ->
  let srcs := match sources b with Some l => l | None => [] end in
  let b1 := ensureSources (uploadedFilenames p) b in
  exists out added k,
    generateBriefWithAI json_parse now_iso p outcome = Ok out /\
    sources (brief out) = Some (srcs ++ added)%list /\
    Forall (fun s => label s = "Referenced document" /\ section s = None /\
                     exists f, In f (uploadedFilenames p) /\ filename s = Some f) added /\
    context b1 = context b /\
    goal (brief out) = goal b /\ options (brief out) = options b /\
    risksTradeoffs (brief out) = risksTradeoffs b /\ decisions (brief out) = decisions b /\
    actionChecklist (brief out) = actionChecklist b /\
    context (brief out) = firstn k (context b).
Proof.
  intros Hc Hp srcs b1.
  destruct (ensureSources_spec (uploadedFilenames p) b) as (added & Heq & Hf & _).
  destruct (truncate_spec b1) as (k & _ & Ht & _).
  exists (finishBrief now_iso p b), added, k.
  split; [unfold generateBriefWithAI; rewrite Hc, Hp; reflexivity|].
  change (brief (finishBrief now_iso p b)) with (truncate b1).
  rewrite Ht. unfold b1. rewrite Heq. simpl.
  repeat (split; [reflexivity|]). split; [exact Hf|].
  repeat (split; [reflexivity|]). reflexivity.
Qed.

Lemma C10_coverage_only_appends_witness :
  snd (callOpenAIWithRetry MAX_RETRIES answers_json) = Ok "{...}" /\
  exists out added k,
    generateBriefWithAI (parse_as long_goal_brief) "now" sample_params answers_json = Ok out /\
    sources (brief out) =
      Some ([{| label := "Plan"; filename := Some "PLAN.txt"; section := None |}] ++ added)%list /\
    Forall (fun s => label s = "Referenced document" /\ section s = None /\
                     exists f, In f (uploadedFilenames sample_params) /\ filename s = Some f) added /\
    context (ensureSources (uploadedFilenames sample_params) long_goal_brief) =
      context long_goal_brief /\
    goal (brief out) = goal long_goal_brief /\ options (brief out) = options long_goal_brief /\
    risksTradeoffs (brief out) = risksTradeoffs long_goal_brief /\
    decisions (brief out) = decisions long_goal_brief /\
    actionChecklist (brief out) = actionChecklist long_goal_brief /\
    context (brief out) = firstn k (context long_goal_brief).
Proof.
  split; [reflexivity|].
  apply (C10_coverage_only_appends (parse_as long_goal_brief) "now" sample_params
           answers_json "{...}" long_goal_brief); reflexivity.
Defined.

(** ** Properties of the retry loop *)

Ltac c7_split outcome n :=
  match goal with
  | |- context [outcome n] =>
      let E := fresh "E" in
      destruct (outcome n) as [[?c|]|?m] eqn:E; simpl;
      repeat match goal with
             | |- context [if String.eqb ?c "" then _ else _] =>
                 let C := fresh "C" in destruct (String.eqb c "") eqn:C; simpl
             | |- context [if is_auth_error ?m then _ else _] =>
                 let A := fresh "A" in destruct (is_auth_error m) eqn:A; simpl
             end
  | _ => idtac
  end.

Ltac c7_rw outcome :=
  repeat match goal with
         | E : outcome ?n = _, H : context [outcome ?n] |- _ =>
             tryif constr_eq E H then fail else rewrite E in H
         | C : String.eqb ?c ?d = _, H : context [String.eqb ?c ?d] |- _ =>
             tryif constr_eq C H then fail else rewrite C in H
         | A : is_auth_error ?m = _, H : context [is_auth_error ?m] |- _ =>
             tryif constr_eq A H then fail else rewrite A in H
         end.

Ltac c7_pre :=
  match goal with |- exists pre, ?e = _ => exists (removelast e); reflexivity end.

Ltac c7_auth outcome :=
  let n := fresh "n" in let m := fresh "m" in
  let Hin := fresh "Hin" in let Hae := fresh "Hae" in let Ha := fresh "Ha" in
  intros n m Hin Hae Ha; simpl in Hin; decompose [or] Hin;
  match goal with
  | H : Attempt _ = Attempt _ |- _ => injection H as <-
  | H : Sleep _ = Attempt _ |- _ => discriminate H
  | H : False |- _ => contradiction
  end;
  c7_rw outcome; simpl in Hae; c7_rw outcome;
  first [discriminate Hae | injection Hae as Hae; subst];
  c7_rw outcome;
  first [discriminate Ha | (vm_compute in Ha; discriminate Ha)
        | split; [c7_pre | reflexivity]].

Ltac c7_exhaust outcome :=
  let H := fresh "H" in
  intros H;
  destruct (H 1) as (x1 & Hx1 & Ha1); [lia|];
  destruct (H 2) as (x2 & Hx2 & Ha2); [lia|];
  destruct (H 3) as (x3 & Hx3 & Ha3); [lia|];
  c7_rw outcome; simpl in Hx1, Hx2, Hx3; c7_rw outcome;
  try first [discriminate Hx1 | injection Hx1 as Hx1; subst];
  try first [discriminate Hx2 | injection Hx2 as Hx2; subst];
  try first [discriminate Hx3 | injection Hx3 as Hx3; subst];
  c7_rw outcome;
  first [discriminate | eexists; split; reflexivity].



(** C7: at most three attempts, 1 s after the first and 2 s after the
    second; an authentication failure (a message that contains
    "Invalid API key" or "authentication") ends the loop at that attempt
    with no sleep; three retryable failures end it with
    "OpenAI API failed after 3 attempts: <last message>". *)
Theorem C7_retry_schedule (outcome : nat -> AttemptOutcome) :
  let '(evs, r) := callOpenAIWithRetry MAX_RETRIES outcome in
  (exists rest, full_schedule = (evs ++ rest)%list) /\
  (forall n m, In (Attempt n) evs -> attempt_error (outcome n) = Some m ->
     is_auth_error m = true ->
     (exists pre, evs = (pre ++ [Attempt n])%list) /\
     r = Err ("OpenAI authentication failed: " ++ m)) /\
  ((forall n, 1 <= n <= 3 -> exists m, attempt_error (outcome n) = Some m /\
                                      is_auth_error m = false) ->
   exists m, attempt_error (outcome 3) = Some m /\
             r = Err ("OpenAI API failed after 3 attempts: " ++ m)).
Proof.
  unfold callOpenAIWithRetry, MAX_RETRIES. simpl.
  c7_split outcome 1. all: c7_split outcome 2. all: c7_split outcome 3.
  all: simpl; split; [eexists; reflexivity|split].
  all: first [c7_auth outcome | c7_exhaust outcome].
Qed.

(** ** Properties of [calculateWordCount] *)
















(** ** Properties of the job processor *)

Lemma count_rows_app (f : Row -> bool) (l1 l2 : list Row) :
  count_rows f (l1 ++ l2)%list = count_rows f l1 + count_rows f l2.
Proof. unfold count_rows. rewrite filter_app, length_app. reflexivity. Qed.

Lemma createDocuments_spec fault mid fs s o s' :
  createDocuments fault mid fs s = (o, s') ->
  jobs s' = jobs s /\ history s' = history s /\ gen_calls s' = gen_calls s /\
  next_job_id s' = next_job_id s /\
  exists added, rows s' = (rows s ++ added)%list /\
    count_rows is_meeting added = 0 /\ count_rows is_brief added = 0.
Proof.
  revert s. induction fs as [|f r IH]; intros s H; cbn in H.
  - inversion H; subst. repeat split; try reflexivity. exists []. rewrite app_nil_r. auto.
  - unfold bind, createDocument, store_op in H.
    destruct (fault (op_count s)) as [e|]; cbn in H.
    + inversion H; subst. cbn. repeat split; try reflexivity.
      exists []. rewrite app_nil_r. auto.
    + apply IH in H as (H1 & H2 & H3 & H4 & added & H5 & H6 & H7). cbn in *.
      rewrite H1, H2, H3, H4. repeat split; try reflexivity.
      exists (RDocument mid f :: added). rewrite H5, <- app_assoc. split; [reflexivity|].
      unfold count_rows in *. cbn. split; assumption.
Qed.

Ltac pj_step flt Hj :=
  match goal with
  | |- context [flt ?n] => let F := fresh "F" in destruct (flt n) as [?e|] eqn:F
  | |- context [?g (metadata ?jj) ?b ?c] => destruct (g (metadata jj) b c) as [?bo|?e]
  | |- context [documentFiles ?j] => destruct (documentFiles j) as [?fs|]
  | |- context [createDocuments ?f ?mid ?fs ?st] =>
      let D := fresh "D" in
      destruct (createDocuments f mid fs st) as [[[]|?e] [?sj ?sn ?sr ?sh ?sop ?sg]] eqn:D;
      let Dj := fresh "Dj" in let Dh := fresh "Dh" in let Dg := fresh "Dg" in
      let Dn := fresh "Dn" in let Dr := fresh "Dr" in
      destruct (createDocuments_spec _ _ _ _ _ _ D) as (Dj & Dh & Dg & Dn & ?added & Dr & ? & ?);
      cbn in Dj, Dh, Dg, Dn, Dr; subst sj sh sg sn sr; clear D
  end; cbn; rewrite ?Nat.eqb_refl, ?Hj; cbn.

Ltac leaf_rest Hj :=
  split; [unfold trace_patches; cbn; rewrite ?app_nil_r, <- ?app_assoc; reflexivity|];
  split; [unfold trace_patches, final_job; cbn; rewrite ?Nat.eqb_refl, ?Hj; reflexivity|];
  split; [let k' := fresh "k'" in let Hk := fresh "Hk" in
          intros k' Hk; apply Nat.eqb_neq in Hk; cbn; rewrite ?Hk; reflexivity|];
  split; [reflexivity|];
  split; [lia|];
  split; [first [left; reflexivity | right; eexists; split; [lia|reflexivity]]|];
  first [ left; split; reflexivity
        | right; split; [reflexivity|]; split; [lia|];
          first [ exists []; split; [rewrite app_nil_r; reflexivity | cbn; lia]
                | eexists; split;
                  [cbn; rewrite <- ?app_assoc; reflexivity
                  | rewrite ?count_rows_app;
                    repeat match goal with H : count_rows _ _ = 0 |- _ => rewrite H end;
                    cbn; lia] ] ].

Ltac leaf_try Hj k := exists k; eexists; first [ exists []; leaf_rest Hj | eexists [failed_patch _]; leaf_rest Hj ].

Ltac leaf Hj :=
  let H := fresh "H" in intros H; injection H as _ H; subst;
  first [ solve [leaf_try Hj 0] | solve [leaf_try Hj 1] | solve [leaf_try Hj 2]
        | solve [leaf_try Hj 3] | solve [leaf_try Hj 4] | solve [leaf_try Hj 5] ].

Lemma processJob_pending fault generate s id j o s' :
  jobs s id = Some j -> status j = "pending" ->
  processJob fault generate id s = (o, s') ->
  exists k bid tail,
    history s' = (history s ++ map (pair id) (replay j (trace_patches k bid tail)))%list /\
    jobs s' id = Some (final_job j (trace_patches k bid tail)) /\
    (forall k', k' <> id -> jobs s' k' = jobs s k') /\
    next_job_id s' = next_job_id s /\
    k <= 5 /\ (tail = [] \/ exists m, k < 5 /\ tail = [failed_patch m]) /\
    ((gen_calls s' = gen_calls s /\ rows s' = rows s) \/
     (gen_calls s' = S (gen_calls s) /\ 1 <= k /\
      exists added, rows s' = (rows s ++ added)%list /\
        count_rows is_meeting added <= 1 /\ count_rows is_brief added <= 1)).
Proof.
  intros Hj Hst.
  unfold processJob, catch, bind, getJob, updateJob, callGenerate,
    createMeeting, createBrief, createAnalytic, ret, store_op.
  pj_step fault Hj.
  all: rewrite ?Hj; cbn; rewrite ?Hst; cbn.
  all: repeat pj_step fault Hj.
  all: rewrite ?Hj; cbn.
  all: leaf Hj.
  Unshelve. all: exact 0.
Qed.


Lemma processJob_not_pending fault generate s id o s' :
  (jobs s id = None \/ exists j, jobs s id = Some j /\ status j <> "pending") ->
  processJob fault generate id s = (o, s') ->
  gen_calls s' = gen_calls s /\ rows s' = rows s /\
  (jobs s' id = None \/ exists j', jobs s' id = Some j' /\ status j' <> "pending") /\
  (fault (op_count s) = None -> s' = bump s).
Proof.
  unfold processJob, catch, bind, getJob, updateJob, ret, store_op.
  intros Hj. destruct (fault (op_count s)) as [e|] eqn:F; cbn.
  - destruct (fault (S (op_count s))) as [e'|]; cbn.
    + intros H; injection H as _ <-; cbn.
      split; [reflexivity|]. split; [reflexivity|]. split; [exact Hj|]. congruence.
    + destruct Hj as [Hj | (j & Hj & Hst)]; rewrite Hj; cbn;
        intros H; injection H as _ <-; cbn.
      * split; [reflexivity|]. split; [reflexivity|]. split; [left; exact Hj|]. congruence.
      * split; [reflexivity|]. split; [reflexivity|]. split; [|congruence].
        right. rewrite Nat.eqb_refl. eexists. split; [reflexivity|]. cbn. discriminate.
  - destruct Hj as [Hj | (j & Hj & Hst)]; rewrite Hj; cbn.
    + intros H; injection H as _ <-.
      split; [reflexivity|]. split; [reflexivity|]. split; [left; exact Hj|]. reflexivity.
    + apply String.eqb_neq in Hst. rewrite Hst. cbn.
      intros H; injection H as _ <-.
      split; [reflexivity|]. split; [reflexivity|].
      split; [right; exists j; split; [exact Hj|]; apply String.eqb_neq; exact Hst|].
      reflexivity.
Qed.

Lemma final_job_not_pending j k bid tail :
  1 <= k -> k <= 5 -> (tail = [] \/ exists m, k < 5 /\ tail = [failed_patch m]) ->
  status (final_job j (trace_patches k bid tail)) <> "pending".
Proof.
  intros H1 H5 [-> | (m & _ & ->)];
    (destruct k as [|[|[|[|[|[|k]]]]]]; [lia| | | | | |lia]); cbn; discriminate.
Qed.

Lemma processJob_cases fault generate s id :
  let r := processJob fault generate id s in
  (gen_calls (snd r) = gen_calls s /\ rows (snd r) = rows s) \/
  (gen_calls (snd r) = S (gen_calls s) /\
   (exists added, rows (snd r) = (rows s ++ added)%list /\
      count_rows is_meeting added <= 1 /\ count_rows is_brief added <= 1) /\
   exists j', jobs (snd r) id = Some j' /\ status j' <> "pending").
Proof.
  cbv zeta. destruct (processJob fault generate id s) as [o s'] eqn:E. cbn.
  destruct (jobs s id) as [j|] eqn:Hj.
  - destruct (String.eqb (status j) "pending") eqn:Hst.
    + apply String.eqb_eq in Hst.
      destruct (processJob_pending fault generate s id j o s' Hj Hst E)
        as (k & bid & tail & _ & Hj' & _ & _ & Hk & Ht & [Hg | (Hg & Hk1 & Hr)]).
      * left; exact Hg.
      * right. split; [exact Hg|]. split; [exact Hr|].
        eexists; split; [exact Hj'|]. apply final_job_not_pending; assumption.
    + apply String.eqb_neq in Hst.
      destruct (processJob_not_pending fault generate s id o s') as (Hg & Hr & _ & _);
        [right; exists j; split; assumption | exact E |].
      left; split; assumption.
  - destruct (processJob_not_pending fault generate s id o s') as (Hg & Hr & _ & _);
      [left; exact Hj | exact E |].
    left; split; assumption.
Qed.

(** C4: re-invoking [processJob] on a completed job is not a no-op when
    the job lookup itself throws: the handler overwrites the terminal status
    "completed" with "failed" and the lookup's error, keeping the job's
    resultBriefId, and a poller sees the transition completed -> failed. *)
Lemma C4_lookup_failure_rewrites_completed_job :
  let s' := snd (processJob lookup_fault gen_ok 1 store_completed) in
  let j' := apply_patch (failed_patch "Connection terminated") completed_job in
  status completed_job = "completed" /\
  jobs s' 1 = Some j' /\ status j' = "failed" /\
  error j' = Some "Connection terminated" /\ resultBriefId j' = Some 1 /\
  history s' = (history store_completed ++ [(1, j')])%list /\
  rows s' = rows store_completed.
Proof.
  cbv zeta. split; [reflexivity|]. split; [vm_compute; reflexivity|].
  split; [reflexivity|]. split; [reflexivity|]. split; [reflexivity|].
  split; vm_compute; reflexivity.
Qed.

(** X24: when the lookup succeeds and the job is not "pending",
    [processJob] returns with the store untouched apart from its call
    counter (no job write, no row created); and two calls on the same job id
    run the generator at most once and create at most one Meeting and one
    Brief, whatever the store calls do. *)
Theorem X24_processJob_guard_and_single_run fault generate :
  (forall s id j, jobs s id = Some j -> status j <> "pending" ->
     fault (op_count s) = None ->
     processJob fault generate id s = (Done tt, bump s)) /\
  (forall s id,
     let s2 := snd (processJob fault generate id (snd (processJob fault generate id s))) in
     gen_calls s2 <= S (gen_calls s) /\
     exists added, rows s2 = (rows s ++ added)%list /\
       count_rows is_meeting added <= 1 /\ count_rows is_brief added <= 1).
Proof.
  split.
  - intros s id j Hj Hst F.
    unfold processJob, catch, bind, getJob, ret, store_op.
    rewrite F. cbn. rewrite Hj. cbn.
    apply String.eqb_neq in Hst. rewrite Hst. reflexivity.
  - intros s id. cbv zeta.
    destruct (processJob_cases fault generate s id)
      as [(Hg & Hr) | (Hg & (added & Hr & Hm & Hb) & j' & Hj' & Hst')].
    + destruct (processJob_cases fault generate (snd (processJob fault generate id s)) id)
        as [(Hg2 & Hr2) | (Hg2 & (added & Hr2 & Hm & Hb) & _)].
      * split; [lia|]. exists []. rewrite Hr2, Hr, app_nil_r. split; [reflexivity|]. cbn. lia.
      * split; [lia|]. exists added. rewrite Hr2, Hr. split; [reflexivity|]. lia.
    + destruct (processJob fault generate id (snd (processJob fault generate id s)))
        as [o2 s2] eqn:E2. cbn.
      destruct (processJob_not_pending fault generate (snd (processJob fault generate id s)) id o2 s2) as (Hg2 & Hr2 & _ & _);
        [right; exists j'; split; assumption | exact E2 |].
      split; [lia|]. exists added. rewrite Hr2, Hr. split; [reflexivity|]. lia.
Qed.

Lemma X24_processJob_guard_and_single_run_witness :
  processJob no_fault gen_ok 1 store_completed = (Done tt, bump store_completed) /\
  gen_calls (snd (processJob no_fault gen_ok 1 (snd (processJob no_fault gen_ok 1 store_completed))))
    <= S (gen_calls store_completed).
Proof.
  destruct (X24_processJob_guard_and_single_run no_fault gen_ok) as [Ha Hb].
  split.
  - apply (Ha store_completed 1 completed_job); [reflexivity | discriminate | reflexivity].
  - exact (proj1 (Hb store_completed 1)).
Defined.

(** X25: when the job lookup throws [e] and the handler's write succeeds,
    [processJob] writes status "failed" and [e]'s message on the job,
    whatever its status, keeping its other columns; it calls no generator
    and creates no row. *)
Theorem X25_lookup_failure_marks_job_failed fault generate s id j e :
  jobs s id = Some j -> fault (op_count s) = Some e -> fault (S (op_count s)) = None ->
  let r := processJob fault generate id s in
  let j' := apply_patch (failed_patch (error_message e)) j in
  fst r = Done tt /\ jobs (snd r) id = Some j' /\
  status j' = "failed" /\ error j' = Some (error_message e) /\
  resultBriefId j' = resultBriefId j /\ progress j' = progress j /\
  history (snd r) = (history s ++ [(id, j')])%list /\
  rows (snd r) = rows s /\ gen_calls (snd r) = gen_calls s.
Proof.
  intros Hj F1 F2. cbv zeta.
  unfold processJob, catch, bind, getJob, updateJob, ret, store_op.
  rewrite F1. cbn [op_count bump]. rewrite F2. cbn [jobs bump]. rewrite Hj.
  cbn. rewrite Nat.eqb_refl.
  repeat (split; [reflexivity|]). reflexivity.
Qed.

Lemma X25_lookup_failure_marks_job_failed_witness :
  let r := processJob lookup_fault gen_ok 1 store_completed in
  let e := ErrorObj "Connection terminated" in
  let j' := apply_patch (failed_patch (error_message e)) completed_job in
  fst r = Done tt /\ jobs (snd r) 1 = Some j' /\
  status j' = "failed" /\ error j' = Some (error_message e) /\
  resultBriefId j' = resultBriefId completed_job /\ progress j' = progress completed_job /\
  history (snd r) = (history store_completed ++ [(1, j')])%list /\
  rows (snd r) = rows store_completed /\ gen_calls (snd r) = gen_calls store_completed.
Proof.
  apply (X25_lookup_failure_marks_job_failed lookup_fault gen_ok store_completed 1
           completed_job (ErrorObj "Connection terminated")); reflexivity.
Defined.

Lemma submitJob_spec fault generate m docs files s o s' :
  submitJob fault generate m docs files s = (o, s') ->
  s' = bump s \/
  exists k bid tail,
    history s' = (history s ++ (next_job_id s, newJob m docs files) ::
                  map (pair (next_job_id s))
                    (replay (newJob m docs files) (trace_patches k bid tail)))%list /\
    jobs s' (next_job_id s) = Some (final_job (newJob m docs files) (trace_patches k bid tail)) /\
    (forall k', k' <> next_job_id s -> jobs s' k' = jobs s k') /\
    k <= 5 /\ (tail = [] \/ exists msg, k < 5 /\ tail = [failed_patch msg]).
Proof.
  unfold submitJob, bind, createJob, store_op, catch, ret.
  destruct (fault (op_count s)) as [e|]; cbn.
  - intros H; injection H as _ <-. left; reflexivity.
  - set (s1 := put_job (next_job_id s) (newJob m docs files) (fresh_job (bump s))).
    destruct (processJob fault generate (next_job_id s) s1) as [o1 s1'] eqn:E.
    intros H.
    assert (Hs : s' = s1') by (destruct o1; cbn in H; injection H as _ <-; reflexivity).
    clear H. subst s'. right.
    destruct (processJob_pending fault generate s1 (next_job_id s) (newJob m docs files) o1 s1')
      as (k & bid & tail & Hh & Hj & Ho & _ & Hk & Ht & _);
      [cbn; rewrite Nat.eqb_refl; reflexivity | reflexivity | exact E |].
    exists k, bid, tail.
    split; [rewrite Hh; cbn; rewrite <- app_assoc; reflexivity|].
    split; [exact Hj|].
    split; [|split; assumption].
    intros k' Hk'. rewrite (Ho k' Hk'). cbn.
    apply Nat.eqb_neq in Hk'. rewrite Hk'. reflexivity.
Qed.

Ltac trace_cases k Ht :=
  let m := fresh "msg" in let Hk5 := fresh "Hk5" in
  destruct Ht as [-> | (m & Hk5 & ->)];
  destruct k as [|[|[|[|[|[|k]]]]]]; try (exfalso; lia).

Ltac stage_k n :=
  exists n; split; [lia|]; first [left; reflexivity | right; split; [lia|reflexivity]].

(** C5: the job rows a submission writes are, in order, the created row
    ("pending", 0) and then a prefix of the stages ("processing", 10), 30,
    70, 85, ("completed", 100), possibly ended by one ("failed") row keeping
    the last progress, after which nothing is written; the progress values
    are non-decreasing.  All rows are those of the new job. *)
Theorem C5_progress_stages fault generate m docs files s o s' :
  submitJob fault generate m docs files s = (o, s') ->
  exists new, history s' = (history s ++ new)%list /\
    Forall (fun e => fst e = next_job_id s) new /\
    nondecreasing (map (fun e => progress_value (snd e)) new) = true /\
    (new = [] \/
     exists k, k <= 5 /\
       (map (fun e => stage (snd e)) new = firstn (S k) expected_stages \/
        (k < 5 /\ map (fun e => stage (snd e)) new =
           (firstn (S k) expected_stages ++
            [("failed", snd (nth k expected_stages ("", None)))])%list))).
Proof.
  intros H. destruct (submitJob_spec fault generate m docs files s o s' H)
    as [-> | (k & bid & tail & Hh & _ & _ & Hk & Ht)].
  - exists []. split; [cbn; rewrite app_nil_r; reflexivity|].
    split; [constructor|]. split; [reflexivity|]. left; reflexivity.
  - eexists. split; [exact Hh|].
    trace_cases k Ht; cbn;
      (split; [repeat constructor|]); (split; [reflexivity|]); right;
      first [ solve [stage_k 0] | solve [stage_k 1] | solve [stage_k 2]
            | solve [stage_k 3] | solve [stage_k 4] | solve [stage_k 5] ].
Qed.

Lemma C5_progress_stages_witness :
  exists new, history (snd (submitJob no_fault gen_ok sample_meta sample_docs None empty_store))
                = (history empty_store ++ new)%list /\
    Forall (fun e => fst e = next_job_id empty_store) new /\
    nondecreasing (map (fun e => progress_value (snd e)) new) = true /\
    (new = [] \/
     exists k, k <= 5 /\
       (map (fun e => stage (snd e)) new = firstn (S k) expected_stages \/
        (k < 5 /\ map (fun e => stage (snd e)) new =
           (firstn (S k) expected_stages ++
            [("failed", snd (nth k expected_stages ("", None)))])%list))).
Proof.
  apply (C5_progress_stages no_fault gen_ok sample_meta sample_docs None empty_store
           (Done tt)).
  vm_compute. reflexivity.
Defined.

Ltac inv_solve :=
  unfold inv_job; cbn;
  split; [|split]; intros Hx; try (destruct Hx as [Hx|Hx]); try discriminate Hx;
  split; try discriminate; reflexivity.

(** C6: a submission keeps the invariant that every job row (current and
    written) with status "completed" has a resultBriefId and no error, one
    with status "failed" has an error and no resultBriefId, and one "pending"
    or "processing" has neither. *)
Theorem C6_terminal_fields_exclusive fault generate m docs files s o s' :
  inv_store s -> submitJob fault generate m docs files s = (o, s') -> inv_store s'.
Proof.
  intros [Hjobs Hhist] H.
  destruct (submitJob_spec fault generate m docs files s o s' H)
    as [-> | (k & bid & tail & Hh & Hj & Ho & Hk & Ht)].
  - split; cbn; assumption.
  - split.
    + intros k' j' Hk'. destruct (Nat.eq_dec k' (next_job_id s)) as [-> | Hne].
      * rewrite Hj in Hk'. injection Hk' as <-. trace_cases k Ht; inv_solve.
      * rewrite (Ho k' Hne) in Hk'. exact (Hjobs k' j' Hk').
    + rewrite Hh. apply Forall_app. split; [exact Hhist|].
      trace_cases k Ht; cbn; repeat (apply Forall_cons; [inv_solve|]); apply Forall_nil.
Qed.

Lemma C6_terminal_fields_exclusive_witness :
  inv_store empty_store /\
  inv_store (snd (submitJob no_fault gen_ok sample_meta sample_docs None empty_store)).
Proof.
  assert (H0 : inv_store empty_store).
  { split; [intros k j H; discriminate H | constructor]. }
  split; [exact H0|].
  exact (C6_terminal_fields_exclusive no_fault gen_ok sample_meta sample_docs None empty_store
           (Done tt) _ H0
           ltac:(vm_compute; reflexivity)).
Defined.

(** C9 (code bug): the two header heuristics differ on a date cell: the CSV
    heuristic rejects "01/02/2024" as a header, the spreadsheet one takes it
    (it has no date test). *)
Theorem C9_excel_header_check_differs :
  csv_hasHeaders ["01/02/2024"] = false /\ excel_hasHeaders [CStr "01/02/2024"] = true.
Proof. split; vm_compute; reflexivity. Qed.

(** ** Properties of the retry schedule *)

Lemma retry_loop_fail retries outcome k' attempt le m :
  attempt_error (outcome attempt) = Some m ->
  retry_loop retries outcome (S k') attempt le =
  if is_auth_error m
  then ([Attempt attempt], Err ("OpenAI authentication failed: " ++ m))
  else let '(evs, r) := retry_loop retries outcome k' (S attempt) (Some m) in
       (Attempt attempt ::
        (if Nat.ltb attempt retries
         then [Sleep (INITIAL_DELAY_MS * 2 ^ (attempt - 1))] else []) ++ evs, r)%list.
Proof.
  intros H. cbn [retry_loop]. unfold attempt_error in H.
  destruct (outcome attempt) as [[c|]|m']; [destruct (String.eqb c "")|..];
    inversion H; subst; reflexivity.
Qed.

Lemma retry_loop_ok retries outcome k' attempt le c :
  outcome attempt = Responded (Some c) -> String.eqb c "" = false ->
  retry_loop retries outcome (S k') attempt le = ([Attempt attempt], Ok c).
Proof. intros H Hc. cbn [retry_loop]. rewrite H, Hc. reflexivity. Qed.

Lemma attempt_error_cases o :
  attempt_error o = None /\ (exists c, o = Responded (Some c) /\ String.eqb c "" = false) \/
  exists m, attempt_error o = Some m.
Proof.
  destruct o as [[c|]|m]; cbn; [destruct (String.eqb c "") eqn:E|..]; eauto.
Qed.

Lemma schedule_prefix retries outcome k attempt le :
  exists rest, schedule_from retries k attempt =
               (fst (retry_loop retries outcome k attempt le) ++ rest)%list.
Proof.
  revert attempt le. induction k as [|k IH]; intros attempt le.
  - exists []. reflexivity.
  - destruct (attempt_error_cases (outcome attempt)) as [(_ & c & Ho & Hc) | (m & Hm)].
    + rewrite (retry_loop_ok _ _ _ _ _ _ Ho Hc). cbn. eexists. reflexivity.
    + rewrite (retry_loop_fail _ _ _ _ _ _ Hm).
      destruct (is_auth_error m).
      * cbn. eexists. reflexivity.
      * destruct (IH (S attempt) (Some m)) as (rest & Hr).
        destruct (retry_loop retries outcome k (S attempt) (Some m)) as [evs r].
        cbn in *. rewrite Hr. exists rest. rewrite <- app_assoc. reflexivity.
Qed.

Lemma firstn_schedule_step retries k' attempt j :
  Nat.ltb attempt retries = true ->
  firstn (S (S j)) (schedule_from retries (S k') attempt) =
  (Attempt attempt :: Sleep (INITIAL_DELAY_MS * 2 ^ (attempt - 1)) ::
   firstn j (schedule_from retries k' (S attempt)))%list.
Proof. intros H. cbn [schedule_from]. rewrite H. reflexivity. Qed.

Lemma retry_loop_ok_spec retries outcome k attempt le evs c :
  1 <= attempt -> attempt + k = S retries ->
  retry_loop retries outcome k attempt le = (evs, Ok c) ->
  exists n, attempt <= n < attempt + k /\ outcome n = Responded (Some c) /\
    c <> "" /\ (forall i, attempt <= i < n -> non_auth_failure (outcome i)) /\
    evs = firstn (2 * (n - attempt) + 1) (schedule_from retries k attempt).
Proof.
  revert attempt le evs. induction k as [|k IH]; intros attempt le evs Ha Hk H.
  - discriminate H.
  - destruct (attempt_error_cases (outcome attempt)) as [(_ & c' & Ho & Hc) | (m & Hm)].
    + rewrite (retry_loop_ok _ _ _ _ _ _ Ho Hc) in H. inversion H; subst.
      exists attempt. split; [lia|]. split; [exact Ho|]. split.
      * intros E. subst. discriminate Hc.
      * split; [intros i Hi; lia|]. rewrite Nat.sub_diag. reflexivity.
    + rewrite (retry_loop_fail _ _ _ _ _ _ Hm) in H.
      destruct (is_auth_error m) eqn:Ea; [discriminate H|].
      destruct (retry_loop retries outcome k (S attempt) (Some m)) as [evs' r] eqn:E.
      inversion H; subst r evs. clear H.
      destruct (IH (S attempt) (Some m) evs') as (n & Hn & Ho & Hc & Hb & He);
        [lia|lia|exact E|].
      exists n. repeat split; try lia; auto.
      * intros i Hi. destruct (Nat.eq_dec i attempt) as [->|]; [exists m; auto|apply Hb; lia].
      * assert (Hlt : Nat.ltb attempt retries = true) by (apply Nat.ltb_lt; lia).
        replace (2 * (n - attempt) + 1) with (S (S (2 * (n - S attempt) + 1))) by lia.
        rewrite firstn_schedule_step by exact Hlt. rewrite Hlt, He. reflexivity.
Qed.

Lemma retry_loop_err_spec retries outcome k attempt le evs m :
  1 <= attempt -> attempt + k = S retries ->
  retry_loop retries outcome k attempt le = (evs, Err m) ->
  (exists n m', attempt <= n < attempt + k /\ attempt_error (outcome n) = Some m' /\
     is_auth_error m' = true /\ m = "OpenAI authentication failed: " ++ m' /\
     (forall i, attempt <= i < n -> non_auth_failure (outcome i)) /\
     evs = firstn (2 * (n - attempt) + 1) (schedule_from retries k attempt)) \/
  ((forall i, attempt <= i < attempt + k -> non_auth_failure (outcome i)) /\
   evs = schedule_from retries k attempt /\
   m = "OpenAI API failed after " ++ nat_to_string retries ++ " attempts: "
       ++ last_error_msg outcome k attempt le).
Proof.
  revert attempt le evs. induction k as [|k IH]; intros attempt le evs Ha Hk H.
  - cbn [retry_loop] in H. inversion H; subst. right.
    split; [intros i Hi; lia|]. split; reflexivity.
  - destruct (attempt_error_cases (outcome attempt)) as [(_ & c' & Ho & Hc) | (m0 & Hm)].
    + rewrite (retry_loop_ok _ _ _ _ _ _ Ho Hc) in H. discriminate H.
    + rewrite (retry_loop_fail _ _ _ _ _ _ Hm) in H.
      destruct (is_auth_error m0) eqn:Ea.
      * inversion H; subst. left. exists attempt, m0.
        split; [lia|]. split; [exact Hm|]. split; [exact Ea|]. split; [reflexivity|].
        split; [intros i Hi; lia|]. rewrite Nat.sub_diag. reflexivity.
      * destruct (retry_loop retries outcome k (S attempt) (Some m0)) as [evs' r] eqn:E.
        inversion H; subst r evs. clear H.
        assert (Hb0 : forall i, i = attempt -> non_auth_failure (outcome i))
          by (intros i ->; exists m0; auto).
        destruct (IH (S attempt) (Some m0) evs') as
          [(n & m' & Hn & Hm' & Ha' & Hmsg & Hb & He) | (Hb & He & Hmsg)];
          [lia|lia|exact E| |].
        -- left. exists n, m'.
           split; [lia|]. split; [exact Hm'|]. split; [exact Ha'|]. split; [exact Hmsg|].
           split.
           ++ intros i Hi. destruct (Nat.eq_dec i attempt); [apply Hb0; auto|apply Hb; lia].
           ++ assert (Hlt : Nat.ltb attempt retries = true) by (apply Nat.ltb_lt; lia).
              replace (2 * (n - attempt) + 1) with (S (S (2 * (n - S attempt) + 1))) by lia.
              rewrite firstn_schedule_step by exact Hlt. rewrite Hlt, He. reflexivity.
        -- right. split; [|split].
           ++ intros i Hi. destruct (Nat.eq_dec i attempt); [apply Hb0; auto|apply Hb; lia].
           ++ cbn [schedule_from]. rewrite He. reflexivity.
           ++ rewrite Hmsg. f_equal. f_equal. unfold last_error_msg.
              destruct k as [|k'].
              ** rewrite Nat.add_1_r, Nat.sub_1_r. cbn. rewrite Hm. reflexivity.
              ** replace (S attempt + S k' - 1) with (attempt + S (S k') - 1) by lia.
                 reflexivity.
Qed.

Lemma count_attempts_app a b :
  count_attempts (a ++ b) = count_attempts a + count_attempts b.
Proof. induction a as [|[]]; cbn; lia. Qed.

Lemma total_sleep_app a b : total_sleep (a ++ b) = total_sleep a + total_sleep b.
Proof. induction a as [|[]]; cbn; lia. Qed.

Lemma count_attempts_schedule retries k attempt :
  count_attempts (schedule_from retries k attempt) = k.
Proof.
  revert attempt; induction k; intros attempt; [reflexivity|].
  cbn [schedule_from count_attempts].
  destruct (Nat.ltb attempt retries); cbn [app count_attempts]; rewrite IHk; reflexivity.
Qed.

Lemma total_sleep_schedule retries k attempt :
  1 <= attempt -> attempt + k = S retries -> 1 <= k ->
  total_sleep (schedule_from retries k attempt) =
  INITIAL_DELAY_MS * (2 ^ (retries - 1) - 2 ^ (attempt - 1)).
Proof.
  revert attempt; induction k as [|k IH]; intros attempt Ha Hk H1; [lia|].
  cbn [schedule_from]. destruct k as [|k].
  - replace attempt with retries by lia. rewrite (proj2 (Nat.ltb_ge retries retries)) by lia.
    cbn. lia.
  - rewrite (proj2 (Nat.ltb_lt attempt retries)) by lia. cbn [app total_sleep].
    rewrite IH by lia. unfold INITIAL_DELAY_MS.
    replace (S attempt - 1) with (S (attempt - 1)) by lia. rewrite Nat.pow_succ_r'.
    assert (2 ^ (S (attempt - 1)) <= 2 ^ (retries - 1))
      by (apply Nat.pow_le_mono_r; lia).
    rewrite Nat.pow_succ_r' in H. nia.
Qed.

(** X1: whatever the API does, the attempts and sleeps of callOpenAIWithRetry
    are a prefix of the fixed schedule (attempt 1, sleep 1000, attempt 2,
    sleep 2000, ...), so it never makes more than maxRetries attempts. *)
Theorem X1_retry_events_follow_schedule retries outcome :
  let evs := fst (callOpenAIWithRetry retries outcome) in
  (exists rest, retry_schedule retries = (evs ++ rest)%list) /\
  count_attempts evs <= retries.
Proof.
  cbn zeta. destruct (schedule_prefix retries outcome retries 1 None) as (rest & Hr).
  split; [exists rest; exact Hr|].
  unfold retry_schedule in Hr. unfold callOpenAIWithRetry.
  pose proof (count_attempts_schedule retries retries 1) as C.
  rewrite Hr, count_attempts_app in C. lia.
Qed.

(** X2: callOpenAIWithRetry succeeds with c only if some attempt n returned
    the non-empty content c, every earlier attempt failed with a non-
    authentication error, and the calls stop right after attempt n. *)
Theorem X2_retry_success retries outcome c :
  snd (callOpenAIWithRetry retries outcome) = Ok c ->
  exists n, 1 <= n <= retries /\ outcome n = Responded (Some c) /\ c <> "" /\
    (forall i, 1 <= i < n -> non_auth_failure (outcome i)) /\
    fst (callOpenAIWithRetry retries outcome) =
      firstn (2 * n - 1) (retry_schedule retries).
Proof.
  unfold callOpenAIWithRetry, retry_schedule.
  destruct (retry_loop retries outcome retries 1 None) as [evs r] eqn:E. cbn. intros ->.
  destruct (retry_loop_ok_spec _ _ _ _ _ _ _ (le_n 1) eq_refl E)
    as (n & Hn & Ho & Hc & Hb & He).
  exists n. split; [lia|]. split; [exact Ho|]. split; [exact Hc|]. split; [exact Hb|].
  rewrite He. f_equal. lia.
Qed.

Lemma X2_retry_success_witness :
  exists n, 1 <= n <= 3 /\ flaky_outcome n = Responded (Some "{}") /\ "{}" <> "" /\
    (forall i, 1 <= i < n -> non_auth_failure (flaky_outcome i)) /\
    fst (callOpenAIWithRetry 3 flaky_outcome) = firstn (2 * n - 1) (retry_schedule 3).
Proof. apply X2_retry_success. vm_compute. reflexivity. Defined.

(** X3: callOpenAIWithRetry fails either at the first authentication error,
    with "OpenAI authentication failed: " and the message, or after all
    attempts failed without one, with "OpenAI API failed after <n> attempts: "
    and the last error ("undefined" when there were no attempts). *)
Theorem X3_retry_failure retries outcome m :
  snd (callOpenAIWithRetry retries outcome) = Err m ->
  (exists n m', 1 <= n <= retries /\ attempt_error (outcome n) = Some m' /\
     is_auth_error m' = true /\ m = "OpenAI authentication failed: " ++ m' /\
     (forall i, 1 <= i < n -> non_auth_failure (outcome i)) /\
     fst (callOpenAIWithRetry retries outcome) =
       firstn (2 * n - 1) (retry_schedule retries)) \/
  ((forall i, 1 <= i <= retries -> non_auth_failure (outcome i)) /\
   fst (callOpenAIWithRetry retries outcome) = retry_schedule retries /\
   exists last,
     m = "OpenAI API failed after " ++ nat_to_string retries ++ " attempts: " ++ last /\
     (retries = 0 /\ last = "undefined" \/ attempt_error (outcome retries) = Some last)).
Proof.
  unfold callOpenAIWithRetry, retry_schedule.
  destruct (retry_loop retries outcome retries 1 None) as [evs r] eqn:E. cbn. intros ->.
  destruct (retry_loop_err_spec _ _ _ _ _ _ _ (le_n 1) eq_refl E)
    as [(n & m' & Hn & Hm' & Ha & Hmsg & Hb & He) | (Hb & He & Hmsg)].
  - left. exists n, m'. split; [lia|]. split; [exact Hm'|]. split; [exact Ha|].
    split; [exact Hmsg|]. split; [exact Hb|]. rewrite He. f_equal. lia.
  - right. split; [intros i Hi; apply Hb; lia|]. split; [exact He|].
    exists (last_error_msg outcome retries 1 None). split; [exact Hmsg|].
    unfold last_error_msg. destruct retries as [|r]; [left; auto|right].
    destruct (Hb (S r)) as (m0 & Hm0 & _); [lia|].
    replace (1 + S r - 1) with (S r) by lia. rewrite Hm0. reflexivity.
Qed.

Lemma X3_retry_failure_witness :
  (exists n m', 1 <= n <= 3 /\ attempt_error (auth_outcome n) = Some m' /\
     is_auth_error m' = true /\
     "OpenAI authentication failed: 401 Invalid API key" =
       "OpenAI authentication failed: " ++ m' /\
     (forall i, 1 <= i < n -> non_auth_failure (auth_outcome i)) /\
     fst (callOpenAIWithRetry 3 auth_outcome) = firstn (2 * n - 1) (retry_schedule 3)) \/
  ((forall i, 1 <= i <= 3 -> non_auth_failure (auth_outcome i)) /\
   fst (callOpenAIWithRetry 3 auth_outcome) = retry_schedule 3 /\
   exists last,
     "OpenAI authentication failed: 401 Invalid API key" =
       "OpenAI API failed after " ++ nat_to_string 3 ++ " attempts: " ++ last /\
     (3 = 0 /\ last = "undefined" \/ attempt_error (auth_outcome 3) = Some last)).
Proof. apply X3_retry_failure. vm_compute. reflexivity. Defined.

(** X4: the schedule sleeps 1000 * (2^(n-1) - 1) ms in total, and no run of
    callOpenAIWithRetry sleeps longer. *)
Theorem X4_retry_total_delay retries outcome :
  total_sleep (retry_schedule retries) = INITIAL_DELAY_MS * (2 ^ (retries - 1) - 1) /\
  total_sleep (fst (callOpenAIWithRetry retries outcome)) <=
    INITIAL_DELAY_MS * (2 ^ (retries - 1) - 1).
Proof.
  assert (T : total_sleep (retry_schedule retries) =
              INITIAL_DELAY_MS * (2 ^ (retries - 1) - 1)).
  { unfold retry_schedule. destruct retries as [|r]; [reflexivity|].
    rewrite total_sleep_schedule by lia. reflexivity. }
  split; [exact T|].
  destruct (schedule_prefix retries outcome retries 1 None) as (rest & Hr).
  fold (retry_schedule retries) in Hr. unfold callOpenAIWithRetry.
  rewrite <- T, Hr, total_sleep_app. lia.
Qed.

(** ** Word counting field by field *)

Lemma str_app_nil_r (s : string) : s ++ "" = s.
Proof. induction s; cbn; [reflexivity|rewrite IHs; reflexivity]. Qed.

Lemma str_app_assoc (a b c : string) : a ++ (b ++ c) = (a ++ b) ++ c.
Proof. induction a; cbn; [reflexivity|rewrite IHa; reflexivity]. Qed.

Lemma count_starts_true (r : string) :
  count_starts true r = count_starts false r + (if starts_word r then 1 else 0).
Proof. destruct r as [|c r]; cbn; [reflexivity|]. destruct (isSpace c); cbn; lia. Qed.

Lemma split_ws_head (s : string) :
  exists w ws, split_ws s = w :: ws /\ Nat.ltb 0 (String.length w) = starts_word s.
Proof.
  induction s as [|c r IH]; cbn.
  - eauto.
  - destruct IH as (w & ws & E & Hw). rewrite E.
    destruct (isSpace c) eqn:Hc; cbn.
    + destruct r as [|c' r']; cbn.
      * eauto.
      * destruct (isSpace c') eqn:Hc'.
        -- exists w, ws. split; [reflexivity|]. cbn in Hw. rewrite Hc' in Hw. exact Hw.
        -- eauto.
    + eauto.
Qed.

Lemma split_ws_count (s : string) :
  length (filter (fun w => Nat.ltb 0 (String.length w)) (split_ws s)) = count_starts true s.
Proof.
  induction s as [|c r IH]; cbn; [reflexivity|].
  destruct (split_ws_head r) as (w & ws & E & Hw). rewrite E in *.
  destruct (isSpace c) eqn:Hc.
  - destruct r as [|c' r']; cbn in *.
    + exact IH.
    + destruct (isSpace c'); cbn; exact IH.
  - rewrite count_starts_true in IH.
    destruct w as [|cw w']; cbn in *; rewrite <- Hw in IH; cbn in IH; lia.
Qed.

Lemma count_starts_drop_ws (s : string) :
  count_starts true (drop_ws s) = count_starts true s.
Proof.
  induction s as [|c r IH]; cbn; [reflexivity|].
  destruct (isSpace c) eqn:Hc; [exact IH|cbn; rewrite Hc; reflexivity].
Qed.

Lemma count_starts_snoc (p : bool) (x : string) (c : ascii) :
  count_starts p (x ++ String c "") =
  count_starts p x + (if isSpace c then 0 else if final_space p x then 1 else 0).
Proof.
  revert p; induction x as [|c0 r IH]; intros p; cbn.
  - destruct (isSpace c); cbn; [reflexivity|]. destruct p; reflexivity.
  - destruct (isSpace c0); rewrite IH; lia.
Qed.

Lemma final_space_snoc (p : bool) (x : string) (c : ascii) :
  final_space p (x ++ String c "") = isSpace c.
Proof. revert p; induction x; intros p; cbn; auto. Qed.

Lemma final_space_rev (r : string) :
  final_space true (rev_str r) = negb (starts_word r).
Proof.
  destruct r as [|c r]; cbn; [reflexivity|].
  rewrite final_space_snoc. destruct (isSpace c); reflexivity.
Qed.

Lemma count_starts_rev (s : string) :
  count_starts true (rev_str s) = count_starts true s.
Proof.
  induction s as [|c r IH]; cbn; [reflexivity|].
  rewrite count_starts_snoc, IH, final_space_rev.
  destruct (isSpace c) eqn:Hc; [lia|].
  rewrite count_starts_true. destruct (starts_word r); cbn; lia.
Qed.

Lemma word_count_starts (t : string) : word_count t = count_starts true t.
Proof.
  unfold word_count, trim. rewrite split_ws_count, count_starts_rev, count_starts_drop_ws,
    count_starts_rev, count_starts_drop_ws. reflexivity.
Qed.

Lemma count_starts_space_app (p : bool) (a b : string) :
  count_starts p (a ++ " " ++ b) = count_starts p a + count_starts true b.
Proof.
  revert p; induction a as [|c r IH]; intros p; cbn; [reflexivity|].
  destruct (isSpace c); rewrite IH; lia.
Qed.

Lemma word_count_space_app (a b : string) :
  word_count (a ++ " " ++ b) = word_count a + word_count b.
Proof. rewrite !word_count_starts. apply count_starts_space_app. Qed.

Lemma count_join (l : list string) :
  count_starts true (join " " l) = list_sum (map (count_starts true) l).
Proof.
  induction l as [|x [|y r] IH]; [reflexivity|cbn; lia|].
  change (join " " (x :: y :: r)) with (x ++ " " ++ join " " (y :: r)).
  rewrite count_starts_space_app, IH. reflexivity.
Qed.

Lemma count_opt_list (p : bool) (t : string) (o : option (list string)) :
  count_starts p (t ++ opt_list o) = count_starts p t + opt_field_words o.
Proof.
  destruct o as [l|]; cbn [opt_list opt_field_words].
  - rewrite count_starts_space_app, count_join, map_map. unfold field_words.
    do 2 f_equal. apply map_ext. intros x. rewrite word_count_starts. reflexivity.
  - rewrite str_app_nil_r. lia.
Qed.

Lemma count_field (t : string) (l : list string) :
  count_starts true (t ++ " " ++ join " " (map removeCitations l)) =
  count_starts true t + field_words l.
Proof.
  rewrite count_starts_space_app, count_join, map_map. unfold field_words.
  do 2 f_equal. apply map_ext. intros x. rewrite word_count_starts. reflexivity.
Qed.

Lemma count_options_fold (l : list BriefOption) (t : string) :
  count_starts true
    (fold_left (fun t o => t ++ " " ++ removeCitations (opt_option o)
                  ++ opt_list (opt_pros o) ++ opt_list (opt_cons o)) l t) =
  count_starts true t + list_sum (map option_words l).
Proof.
  revert t; induction l as [|o l IH]; intros t; cbn [fold_left map]; [cbn; lia|]; change (list_sum (?x :: ?y)) with (x + list_sum y).
  rewrite IH, count_starts_space_app, str_app_assoc, !count_opt_list.
  unfold option_words. rewrite word_count_starts. lia.
Qed.

Lemma count_items_fold (l : list ActionItem) (t : string) :
  count_starts true
    (fold_left (fun t a => t ++ " " ++ owner a ++ " " ++ task a ++ " " ++ dueDate a) l t) =
  count_starts true t + list_sum (map item_words l).
Proof.
  revert t; induction l as [|a l IH]; intros t; cbn [fold_left map]; [cbn; lia|]; change (list_sum (?x :: ?y)) with (x + list_sum y).
  rewrite IH, !count_starts_space_app. unfold item_words. rewrite !word_count_starts. lia.
Qed.

Lemma calculateWordCount_fields (b : Brief) :
  calculateWordCount b =
    word_count (removeCitations (goal b)) + field_words (context b)
    + list_sum (map option_words (options b)) + field_words (risksTradeoffs b)
    + field_words (decisions b) + list_sum (map item_words (actionChecklist b)).
Proof.
  unfold calculateWordCount, word_count_text. rewrite word_count_starts.
  rewrite count_items_fold, !count_field, count_options_fold, count_field.
  rewrite word_count_starts. lia.
Qed.



(** ** Processing a job and polling its status *)

Lemma createDocuments_no_fault mid fs s :
  createDocuments no_fault mid fs s =
  (Done tt, {| jobs := jobs s; next_job_id := next_job_id s;
               rows := (rows s ++ map (RDocument mid) fs)%list; history := history s;
               op_count := length fs + op_count s; gen_calls := gen_calls s |}).
Proof.
  revert s; induction fs as [|f r IH]; intros s; cbn.
  - rewrite app_nil_r. destruct s; reflexivity.
  - unfold bind, createDocument, store_op. cbn. rewrite IH. cbn.
    rewrite <- app_assoc, Nat.add_succ_r. reflexivity.
Qed.

Lemma processJob_no_fault_success generate s id j out :
  jobs s id = Some j -> status j = "pending" ->
  generate (metadata j) (combineContents (job_documentContents j))
           (map dc_filename (job_documentContents j)) = Done out ->
  let mid := S (count_rows is_meeting (rows s)) in
  let bid := S (count_rows is_brief (rows s)) in
  let r := processJob no_fault generate id s in
  fst r = Done tt /\
  jobs (snd r) id = Some (final_job j (good_patches bid)) /\
  status (final_job j (good_patches bid)) = "completed" /\
  progress (final_job j (good_patches bid)) = Some 100 /\
  resultBriefId (final_job j (good_patches bid)) = Some bid /\
  error (final_job j (good_patches bid)) = error j /\
  rows (snd r) =
    (rows s ++ [RMeeting mid (metadata j); RBrief bid mid out] ++
     map (RDocument mid) (match documentFiles j with Some fs => fs | None => [] end) ++
     [RAnalytic bid mid])%list /\
  gen_calls (snd r) = S (gen_calls s).
Proof.
  intros Hj Hst Hg. cbv zeta.
  unfold processJob, catch, bind, getJob, updateJob, callGenerate,
    createMeeting, createBrief, createAnalytic, ret, store_op.
  cbn. rewrite Hj. cbn. rewrite Hst. cbn.
  repeat (rewrite ?Nat.eqb_refl, ?Hj, ?Hg; cbn).
  destruct (documentFiles j) as [fs|] eqn:Hd; rewrite ?createDocuments_no_fault;
  repeat (rewrite ?Nat.eqb_refl, ?Hj, ?Hg; cbn).
  all: unfold count_rows; rewrite ?filter_app; cbn [filter is_brief]; rewrite ?app_nil_r.
  all: repeat split; rewrite <- ?app_assoc; reflexivity.
Qed.

Lemma processJob_no_fault_gen_failure generate s id j e :
  jobs s id = Some j -> status j = "pending" ->
  generate (metadata j) (combineContents (job_documentContents j))
           (map dc_filename (job_documentContents j)) = Raised e ->
  let r := processJob no_fault generate id s in
  let j' := final_job j [patch (Some "processing") (Some 10) None None;
                         patch None (Some 30) None None;
                         failed_patch (error_message e)] in
  fst r = Done tt /\ jobs (snd r) id = Some j' /\
  status j' = "failed" /\ error j' = Some (error_message e) /\
  progress j' = Some 30 /\ resultBriefId j' = resultBriefId j /\
  rows (snd r) = rows s /\ gen_calls (snd r) = S (gen_calls s).
Proof.
  intros Hj Hst Hg. cbv zeta.
  unfold processJob, catch, bind, getJob, updateJob, callGenerate, ret, store_op.
  cbn. rewrite Hj. cbn. rewrite Hst. cbn.
  repeat (rewrite ?Nat.eqb_refl, ?Hj, ?Hg; cbn).
  repeat split; reflexivity.
Qed.

(** X11: processJob on an id with no job changes no job, row or history entry,
    whatever store operation fails. *)
Theorem X11_processJob_missing_job fault generate s id :
  jobs s id = None ->
  let s' := snd (processJob fault generate id s) in
  jobs s' = jobs s /\ history s' = history s /\ rows s' = rows s /\
  gen_calls s' = gen_calls s /\ next_job_id s' = next_job_id s.
Proof.
  intros Hj. cbv zeta.
  unfold processJob, catch, bind, getJob, updateJob, ret, store_op.
  destruct (fault (op_count s)) as [e|]; cbn.
  - destruct (fault (S (op_count s))); cbn; [|rewrite Hj]; cbn; repeat split; reflexivity.
  - rewrite Hj. cbn. repeat split; reflexivity.
Qed.

Lemma X11_processJob_missing_job_witness :
  let s' := snd (processJob lookup_fault gen_ok 1 empty_store) in
  jobs s' = jobs empty_store /\ history s' = history empty_store /\
  rows s' = rows empty_store /\ gen_calls s' = gen_calls empty_store /\
  next_job_id s' = next_job_id empty_store.
Proof. apply X11_processJob_missing_job. reflexivity. Defined.

(** X9: when no store call fails, processing a pending job whose generation
    succeeds completes it with progress 100 and the new brief id, and
    appends the meeting, brief, one document row per uploaded file and an
    analytics row. *)
Theorem X9_processJob_success generate s id j out :
  jobs s id = Some j -> status j = "pending" ->
  generate (metadata j) (combineContents (job_documentContents j))
           (map dc_filename (job_documentContents j)) = Done out ->
  let mid := S (count_rows is_meeting (rows s)) in
  let bid := S (count_rows is_brief (rows s)) in
  let r := processJob no_fault generate id s in
  fst r = Done tt /\
  jobs (snd r) id = Some (final_job j (good_patches bid)) /\
  status (final_job j (good_patches bid)) = "completed" /\
  progress (final_job j (good_patches bid)) = Some 100 /\
  resultBriefId (final_job j (good_patches bid)) = Some bid /\
  error (final_job j (good_patches bid)) = error j /\
  rows (snd r) =
    (rows s ++ [RMeeting mid (metadata j); RBrief bid mid out] ++
     map (RDocument mid) (match documentFiles j with Some fs => fs | None => [] end) ++
     [RAnalytic bid mid])%list /\
  gen_calls (snd r) = S (gen_calls s).
Proof. exact (processJob_no_fault_success generate s id j out). Qed.

Lemma X9_processJob_success_witness :
  let j := newJob sample_meta sample_docs (Some [plan_file]) in
  let r := processJob no_fault gen_ok 1 store_pending in
  fst r = Done tt /\
  jobs (snd r) 1 = Some (final_job j (good_patches 1)) /\
  status (final_job j (good_patches 1)) = "completed" /\
  progress (final_job j (good_patches 1)) = Some 100 /\
  resultBriefId (final_job j (good_patches 1)) = Some 1 /\
  error (final_job j (good_patches 1)) = error j /\
  rows (snd r) = ([] ++ [RMeeting 1 (metadata j); RBrief 1 1 sample_out] ++
                  map (RDocument 1) [plan_file] ++ [RAnalytic 1 1])%list /\
  gen_calls (snd r) = 1.
Proof.
  apply (X9_processJob_success gen_ok store_pending 1
           (newJob sample_meta sample_docs (Some [plan_file])) sample_out);
    reflexivity.
Defined.

Lemma find_brief_app id l1 l2 :
  find_brief id l1 = None -> find_brief id (l1 ++ l2)%list = find_brief id l2.
Proof.
  induction l1 as [|r l1 IH]; cbn; [auto|].
  destruct r; auto. destruct (Nat.eqb id0 id); [discriminate|auto].
Qed.

Lemma find_brief_none id l :
  (forall i mid b, In (RBrief i mid b) l -> i < id) -> find_brief id l = None.
Proof.
  induction l as [|r l IH]; intros H; cbn; [reflexivity|].
  destruct r; try (apply IH; intros i mid b Hi; apply (H i mid b); right; exact Hi).
  destruct (Nat.eqb id0 id) eqn:E.
  - apply Nat.eqb_eq in E. subst. specialize (H id meetingId b (or_introl eq_refl)). lia.
  - apply IH. intros i mid b' Hi. apply (H i mid b'). right. exact Hi.
Qed.

Lemma submitJob_no_fault generate m docs files s :
  let s1 := put_job (next_job_id s) (newJob m docs files) (fresh_job (bump s)) in
  submitJob no_fault generate m docs files s =
  (Done tt, snd (processJob no_fault generate (next_job_id s) s1)).
Proof.
  cbv zeta. unfold submitJob, bind, createJob, store_op, catch, ret. cbn.
  destruct (processJob no_fault generate (next_job_id s) _) as [[[]|e] s2]; cbn.
  all: reflexivity.
Qed.

(** X12: polling a job right after a successful submission reports it
    completed with progress 100 and returns the generated brief. *)
Theorem X12_poll_after_successful_submission generate jc bc now m docs files s out :
  generate m (combineContents docs) (map dc_filename docs) = Done out ->
  (forall i mid b, In (RBrief i mid b) (rows s) -> i <= count_rows is_brief (rows s)) ->
  let id := next_job_id s in
  let bid := S (count_rows is_brief (rows s)) in
  let s' := snd (submitJob no_fault generate m docs files s) in
  fst (getJobStatus no_fault jc bc now id s') =
    Done (JobStatus {| jv_id := id; jv_status := "completed"; jv_progress := 100;
                       jv_error := None; jv_resultBriefId := Some bid;
                       jv_createdAt := jc id |}
                    (Some (brief_view bc now bid out))).
Proof.
  intros Hg Hids. cbv zeta. rewrite submitJob_no_fault. cbn [snd].
  set (s1 := put_job (next_job_id s) (newJob m docs files) (fresh_job (bump s))).
  destruct (processJob_no_fault_success generate s1 (next_job_id s) (newJob m docs files) out)
    as (_ & Hj & _ & _ & _ & _ & Hr & _);
    [unfold s1; cbn; rewrite Nat.eqb_refl; reflexivity | reflexivity | exact Hg |].
  cbv zeta in Hj, Hr.
  destruct (processJob no_fault generate (next_job_id s) s1) as [o s2]. cbn [snd] in *.
  replace (rows s1) with (rows s) in Hr by reflexivity.
  unfold getJobStatus, catch, bind, getJob, getBrief, store_op, ret. cbn.
  rewrite Hj. cbn. rewrite Hr, find_brief_app by (apply find_brief_none; intros i mid b Hi;
    specialize (Hids i mid b Hi); unfold count_rows in *; lia).
  cbn. rewrite Nat.eqb_refl. reflexivity.
Qed.

Lemma X12_poll_after_successful_submission_witness :
  let s' := snd (submitJob no_fault gen_ok sample_meta sample_docs (Some [plan_file])
                   empty_store) in
  fst (getJobStatus no_fault job_stamp brief_stamp "now" 1 s') =
    Done (JobStatus {| jv_id := 1; jv_status := "completed"; jv_progress := 100;
                       jv_error := None; jv_resultBriefId := Some 1;
                       jv_createdAt := job_stamp 1 |}
                    (Some (brief_view brief_stamp "now" 1 sample_out))).
Proof.
  apply (X12_poll_after_successful_submission gen_ok job_stamp brief_stamp "now"
           sample_meta sample_docs (Some [plan_file]) empty_store sample_out).
  - reflexivity.
  - intros i mid b [].
Defined.

(** X10: when no store call fails and generation raises, processJob marks
    the job failed with the error's message at progress 30, writes no rows
    and leaves the job's resultBriefId as it was. *)
Theorem X10_processJob_generator_failure generate s id j e :
  jobs s id = Some j -> status j = "pending" ->
  generate (metadata j) (combineContents (job_documentContents j))
           (map dc_filename (job_documentContents j)) = Raised e ->
  let r := processJob no_fault generate id s in
  let j' := final_job j [patch (Some "processing") (Some 10) None None;
                         patch None (Some 30) None None;
                         failed_patch (error_message e)] in
  fst r = Done tt /\ jobs (snd r) id = Some j' /\
  status j' = "failed" /\ error j' = Some (error_message e) /\
  progress j' = Some 30 /\ resultBriefId j' = resultBriefId j /\
  rows (snd r) = rows s /\ gen_calls (snd r) = S (gen_calls s).
Proof. exact (processJob_no_fault_gen_failure generate s id j e). Qed.

Lemma X10_processJob_generator_failure_witness :
  let e := ErrorObj "Failed to generate brief: Invalid JSON response from AI" in
  let j := newJob sample_meta sample_docs (Some [plan_file]) in
  let r := processJob no_fault gen_fail 1 store_pending in
  let j' := final_job j [patch (Some "processing") (Some 10) None None;
                         patch None (Some 30) None None;
                         failed_patch (error_message e)] in
  fst r = Done tt /\ jobs (snd r) 1 = Some j' /\
  status j' = "failed" /\ error j' = Some (error_message e) /\
  progress j' = Some 30 /\ resultBriefId j' = resultBriefId j /\
  rows (snd r) = rows store_pending /\ gen_calls (snd r) = S (gen_calls store_pending).
Proof.
  apply (X10_processJob_generator_failure gen_fail store_pending 1
           (newJob sample_meta sample_docs (Some [plan_file]))); reflexivity.
Defined.

(** X14: when no store call fails during the submission and the poll,
    polling a job whose generation failed reports status failed, progress
    30, the error message and no brief. *)
Theorem X14_poll_after_failed_generation generate jc bc now m docs files s e :
  generate m (combineContents docs) (map dc_filename docs) = Raised e ->
  let id := next_job_id s in
  let s' := snd (submitJob no_fault generate m docs files s) in
  fst (getJobStatus no_fault jc bc now id s') =
    Done (JobStatus {| jv_id := id; jv_status := "failed"; jv_progress := 30;
                       jv_error := Some (error_message e); jv_resultBriefId := None;
                       jv_createdAt := jc id |} None).
Proof.
  intros Hg. cbv zeta. rewrite submitJob_no_fault. cbn [snd].
  set (s1 := put_job (next_job_id s) (newJob m docs files) (fresh_job (bump s))).
  destruct (processJob_no_fault_gen_failure generate s1 (next_job_id s) (newJob m docs files) e)
    as (_ & Hj & _);
    [unfold s1; cbn; rewrite Nat.eqb_refl; reflexivity | reflexivity | exact Hg |].
  cbv zeta in Hj.
  destruct (processJob no_fault generate (next_job_id s) s1) as [o s2]. cbn [snd] in *.
  unfold getJobStatus, catch, bind, getJob, getBrief, store_op, ret. cbn.
  rewrite Hj. reflexivity.
Qed.

Lemma X14_poll_after_failed_generation_witness :
  let e := ErrorObj "Failed to generate brief: Invalid JSON response from AI" in
  let s' := snd (submitJob no_fault gen_fail sample_meta sample_docs None empty_store) in
  fst (getJobStatus no_fault job_stamp brief_stamp "now" 1 s') =
    Done (JobStatus {| jv_id := 1; jv_status := "failed"; jv_progress := 30;
                       jv_error := Some (error_message e); jv_resultBriefId := None;
                       jv_createdAt := job_stamp 1 |} None).
Proof.
  apply (X14_poll_after_failed_generation gen_fail job_stamp brief_stamp "now"
           sample_meta sample_docs None empty_store).
  reflexivity.
Defined.

(** ** Properties of the document parser *)

Lemma split_on_free c e :
  has_char c e = false -> split_on c e = [e].
Proof.
  induction e as [|a r IH]; cbn; [reflexivity|].
  intros H. apply orb_false_iff in H as [H1 H2]. rewrite IH by exact H2.
  rewrite Ascii.eqb_sym, H1. reflexivity.
Qed.

Lemma split_on_last c x e :
  has_char c e = false ->
  exists w l, split_on c (x ++ String c e) = (w :: l ++ [e])%list.
Proof.
  intros He. induction x as [|a r IH]; cbn.
  - rewrite Ascii.eqb_refl, split_on_free by exact He. exists "", []. reflexivity.
  - destruct IH as (w & l & E). rewrite E.
    destruct (Ascii.eqb a c).
    + exists "", (w :: l). reflexivity.
    + exists (String a w), l. reflexivity.
Qed.

Lemma pop_last_snoc w l e : pop_last (w :: l ++ [e])%list = Some e.
Proof. unfold pop_last. rewrite app_comm_cons, rev_app_distr. reflexivity. Qed.

Lemma toLowerCase_app a b : toLowerCase (a ++ b) = toLowerCase a ++ toLowerCase b.
Proof. induction a; cbn; [reflexivity|rewrite IHa; reflexivity]. Qed.

Lemma lower_char_dot c : Ascii.eqb "."%char (lower_char c) = Ascii.eqb "."%char c.
Proof.
  unfold lower_char.
  destruct (Nat.leb 65 (nat_of_ascii c) && Nat.leb (nat_of_ascii c) 90) eqn:E; [|reflexivity].
  apply andb_true_iff in E as [E1 E2]. apply Nat.leb_le in E1, E2.
  destruct (Ascii.eqb "."%char c) eqn:Ec.
  - apply Ascii.eqb_eq in Ec. subst c. cbn in E1. lia.
  - apply Ascii.eqb_neq. intros H.
    apply (f_equal nat_of_ascii) in H. rewrite nat_ascii_embedding in H by lia.
    cbn in H. lia.
Qed.

Lemma has_char_lower e : has_char "."%char (toLowerCase e) = has_char "."%char e.
Proof. induction e; cbn [has_char toLowerCase]; [reflexivity|rewrite lower_char_dot, IHe; reflexivity]. Qed.

Lemma ext_of_path p e :
  has_char "."%char e = false ->
  pop_last (split_on "."%char (toLowerCase (p ++ "." ++ e))) = Some (toLowerCase e).
Proof.
  intros He. rewrite toLowerCase_app.
  change (toLowerCase ("." ++ e)) with (String (lower_char "."%char) (toLowerCase e)).
  replace (lower_char "."%char) with "."%char by reflexivity.
  destruct (split_on_last "."%char (toLowerCase p) (toLowerCase e)) as (w & l & E);
    [rewrite has_char_lower; exact He|].
  rewrite E. apply pop_last_snoc.
Qed.

Lemma mime_from_extension p e provided v :
  (provided = "" \/ provided = "application/octet-stream") ->
  has_char "."%char e = false ->
  mimeMap (toLowerCase e) = Some v ->
  getMimeTypeFromPath (p ++ "." ++ e) provided = v.
Proof.
  intros Hp He Hv. unfold getMimeTypeFromPath.
  replace (negb (String.eqb provided "") &&
           negb (String.eqb provided "application/octet-stream")) with false
    by (destruct Hp as [-> | ->]; reflexivity).
  cbv zeta. rewrite ext_of_path by exact He. rewrite Hv. reflexivity.
Qed.

(** X15: when the upload's type is empty or application/octet-stream, the type
    is taken from the path's last extension, case-insensitively. *)
Theorem X15_mime_from_extension p e provided v :
  (provided = "" \/ provided = "application/octet-stream") ->
  has_char "."%char e = false ->
  mimeMap (toLowerCase e) = Some v ->
  getMimeTypeFromPath (p ++ "." ++ e) provided = v.
Proof. exact (mime_from_extension p e provided v). Qed.

Lemma X15_mime_from_extension_witness :
  getMimeTypeFromPath ("uploads/1-2-Q3 Report" ++ "." ++ "PDF") "application/octet-stream"
  = MimeStr "application/pdf".
Proof.
  apply X15_mime_from_extension; [right; reflexivity | reflexivity | reflexivity].
Defined.

(** X16: a file whose extension is constructor or __proto__ (any case) and no
    useful type is rejected as unsupported, with the inherited object's string
    as the type shown. *)
Theorem X16_inherited_key_unsupported readFileText pdfText extractRawText csvParse
    readWorkbook p e provided :
  (provided = "" \/ provided = "application/octet-stream") ->
  has_char "."%char e = false ->
  (toLowerCase e = "constructor" \/ toLowerCase e = "__proto__") ->
  exists shown,
    parseDocument readFileText pdfText extractRawText csvParse readWorkbook
      (p ++ "." ++ e) provided =
      Raised (ErrorObj ("Failed to parse document: Unsupported file type: " ++ shown)) /\
    (toLowerCase e = "constructor" /\ shown = "function Object() { [native code] }" \/
     toLowerCase e = "__proto__" /\ shown = "[object Object]").
Proof.
  intros Hp He Hk. unfold parseDocument.
  destruct Hk as [Hk|Hk].
  - rewrite (mime_from_extension p e provided ObjectConstructor Hp He) by (rewrite Hk; reflexivity).
    eexists. split; [reflexivity|]. left. auto.
  - rewrite (mime_from_extension p e provided ObjectPrototype Hp He) by (rewrite Hk; reflexivity).
    eexists. split; [reflexivity|]. right. auto.
Qed.

Lemma X16_inherited_key_unsupported_witness :
  exists shown,
    parseDocument read_ok read_ok read_ok csv_none book_none
      ("uploads/1-2-notes" ++ "." ++ "Constructor") "" =
      Raised (ErrorObj ("Failed to parse document: Unsupported file type: " ++ shown)) /\
    (toLowerCase "Constructor" = "constructor" /\
       shown = "function Object() { [native code] }" \/
     toLowerCase "Constructor" = "__proto__" /\ shown = "[object Object]").
Proof.
  apply X16_inherited_key_unsupported; [left; reflexivity | reflexivity | left; reflexivity].
Defined.

(** X17: a file with a non-generic client type outside the supported list is
    rejected with "Failed to parse document: Unsupported file type: " and that
    type. *)
Theorem X17_unsupported_client_type readFileText pdfText extractRawText csvParse
    readWorkbook filePath mimeType :
  mimeType <> "" -> mimeType <> "application/octet-stream" -> ~ In mimeType allowedTypes ->
  parseDocument readFileText pdfText extractRawText csvParse readWorkbook filePath mimeType =
    Raised (ErrorObj ("Failed to parse document: Unsupported file type: " ++ mimeType)).
Proof.
  intros H1 H2 H3. unfold parseDocument, getMimeTypeFromPath.
  apply String.eqb_neq in H1, H2. rewrite H1, H2. cbn [negb andb].
  unfold allowedTypes in H3. cbn [In] in H3.
  repeat match goal with
         | |- context [String.eqb mimeType ?t] =>
             let E := fresh in destruct (String.eqb mimeType t) eqn:E;
             [apply String.eqb_eq in E; subst mimeType; exfalso; apply H3;
              repeat (first [left; reflexivity | right])|]
         end.
  reflexivity.
Qed.

Lemma X17_unsupported_client_type_witness :
  parseDocument read_ok read_ok read_ok csv_none book_none "uploads/1-2-notes.md"
    "text/x-markdown" =
    Raised (ErrorObj ("Failed to parse document: Unsupported file type: " ++
                      "text/x-markdown")).
Proof.
  apply X17_unsupported_client_type.
  - discriminate.
  - discriminate.
  - vm_compute. intros H. repeat (destruct H as [H|H]; [discriminate H|]). exact H.
Defined.

(** X18: when mammoth fails on a PowerPoint file, parseDocument returns the
    file read as text, or the read's error wrapped as a parse failure. *)
Theorem X18_pptx_falls_back_to_text readFileText pdfText extractRawText csvParse
    readWorkbook filePath e :
  extractRawText filePath = Raised e ->
  parseDocument readFileText pdfText extractRawText csvParse readWorkbook filePath
    "application/vnd.openxmlformats-officedocument.presentationml.presentation" =
  match readFileText filePath with
  | Done s => Done s
  | Raised e' => Raised (ErrorObj ("Failed to parse document: " ++
                   match e' with ErrorObj m => m | NonError => "Unknown error" end))
  end.
Proof.
  intros H. unfold parseDocument, getMimeTypeFromPath. cbn -[parsePPTX].
  unfold parsePPTX. rewrite H. destruct (readFileText filePath); reflexivity.
Qed.

Lemma X18_pptx_falls_back_to_text_witness :
  parseDocument read_ok read_ok mammoth_fails csv_none book_none "uploads/1-2-deck.pptx"
    "application/vnd.openxmlformats-officedocument.presentationml.presentation" =
  match read_ok "uploads/1-2-deck.pptx" with
  | Done s => Done s
  | Raised e' => Raised (ErrorObj ("Failed to parse document: " ++
                   match e' with ErrorObj m => m | NonError => "Unknown error" end))
  end.
Proof. apply (X18_pptx_falls_back_to_text _ _ _ _ _ _ (ErrorObj "Could not find the body element")). reflexivity. Defined.

Lemma str_app_assoc' (a b c : string) : (a ++ b) ++ c = a ++ (b ++ c).
Proof. induction a; cbn; [reflexivity|rewrite IHa; reflexivity]. Qed.

Lemma contains_app_l s1 s2 t : contains s1 t -> contains (s1 ++ s2) t.
Proof.
  intros (a & b & ->). exists a, (b ++ s2). rewrite !str_app_assoc'. reflexivity.
Qed.

Lemma contains_app_r s1 s2 t : contains s2 t -> contains (s1 ++ s2) t.
Proof.
  intros (a & b & ->). exists (s1 ++ a), b. rewrite !str_app_assoc'. reflexivity.
Qed.

Lemma contains_refl t : contains t t.
Proof. exists "", "". cbn. induction t; cbn; [reflexivity|rewrite <- IHt; reflexivity]. Qed.

Lemma contains_concat l x t : In x l -> contains x t -> contains (concat_all l) t.
Proof.
  induction l as [|y l IH]; cbn; [intros []|].
  intros [->|Hin] Hc; [apply contains_app_l; exact Hc|apply contains_app_r; auto].
Qed.

Lemma nth_error_mapi_from {A B} (f : nat -> A -> B) i l k :
  nth_error (mapi_from f i l) k = option_map (f (i + k)) (nth_error l k).
Proof.
  revert i k; induction l as [|x l IH]; intros i k; destruct k; cbn; auto.
  - rewrite Nat.add_0_r. reflexivity.
  - rewrite IH. f_equal. f_equal. lia.
Qed.

Lemma length_mapi_from {A B} (f : nat -> A -> B) i l : length (mapi_from f i l) = length l.
Proof. revert i; induction l; intros i; cbn; auto. Qed.

Lemma in_mapi_from {A B} (f : nat -> A -> B) l k x :
  nth_error l k = Some x -> In (f k x) (mapi_from f 0 l).
Proof.
  intros H. apply (nth_error_In _ k). rewrite nth_error_mapi_from, H. reflexivity.
Qed.

Lemma mapi_from_ext {A B} (f g : nat -> A -> B) i l :
  (forall k x, nth_error l k = Some x -> f (i + k) x = g (i + k) x) ->
  mapi_from f i l = mapi_from g i l.
Proof.
  revert i; induction l as [|x l IH]; intros i H; cbn; [reflexivity|].
  f_equal.
  - specialize (H 0 x eq_refl). rewrite Nat.add_0_r in H. exact H.
  - apply IH. intros k y Hk. specialize (H (S k) y Hk).
    rewrite Nat.add_succ_r in H. exact H.
Qed.

Lemma row_text_contains {A} (show : A -> string) headers index row j h v :
  nth_error headers j = Some h -> nth_error row j = Some v ->
  contains (row_text show headers index row) ("  " ++ h ++ ": " ++ show v ++ nl).
Proof.
  intros Hh Hv. unfold row_text.
  apply contains_app_r. apply contains_app_r. apply contains_app_r. apply contains_app_r.
  apply contains_app_l. eapply contains_concat; [|apply contains_refl].
  pose proof (in_mapi_from (fun colIndex header =>
                match nth_error row colIndex with
                | Some value => "  " ++ header ++ ": " ++ show value ++ nl
                | None => EmptyString
                end) headers j h Hh) as Hin.
  cbn beta in Hin. rewrite Hv in Hin. exact Hin.
Qed.

(** X19: every cell of every data row within the first row's width appears in
    the CSV text as a line with its header and value. *)
Theorem X19_csv_prints_every_cell rawRecords i row j h v :
  rawRecords <> [] ->
  nth_error (csv_dataRows rawRecords) i = Some row ->
  nth_error (csv_headers (hd [] rawRecords)) j = Some h ->
  nth_error row j = Some v ->
  contains (csv_text rawRecords) ("  " ++ h ++ ": " ++ v ++ nl).
Proof.
  intros Hne Hr Hh Hv. destruct rawRecords as [|firstRow rest]; [contradiction|].
  cbn [csv_text hd] in *.
  repeat apply contains_app_r.
  eapply contains_concat; [eapply in_mapi_from; exact Hr|].
  apply (row_text_contains (fun v => v) _ _ _ j); assumption.
Qed.

Lemma X19_csv_prints_every_cell_witness :
  contains (csv_text [["name"; "qty"]; ["apple"; ""]]) ("  " ++ "qty" ++ ": " ++ "" ++ nl).
Proof.
  apply (X19_csv_prints_every_cell [["name"; "qty"]; ["apple"; ""]] 0 ["apple"; ""] 1);
    [discriminate | vm_compute; reflexivity | vm_compute; reflexivity | reflexivity].
Defined.

Lemma nth_error_firstn_lt {A} (l : list A) n k :
  k < n -> nth_error (firstn n l) k = nth_error l k.
Proof.
  revert n k; induction l as [|x l IH]; intros n k Hk; destruct n, k; cbn; auto; try lia.
  apply IH. lia.
Qed.

Lemma mapi_from_map {A B C} (f : nat -> B -> C) (g : A -> B) i l :
  mapi_from f i (map g l) = mapi_from (fun k x => f k (g x)) i l.
Proof. revert i; induction l; intros i; cbn; [reflexivity|rewrite IHl; reflexivity]. Qed.

Lemma row_text_firstn {A} (show : A -> string) headers index row :
  row_text show headers index (firstn (length headers) row) = row_text show headers index row.
Proof.
  unfold row_text. do 4 f_equal. f_equal. f_equal. apply mapi_from_ext. intros k h Hk.
  rewrite nth_error_firstn_lt; [reflexivity|]. cbn.
  apply nth_error_Some. rewrite Hk. discriminate.
Qed.

Lemma csv_headers_length firstRow : length (csv_headers firstRow) = length firstRow.
Proof. unfold csv_headers. destruct (csv_hasHeaders firstRow); apply length_mapi_from. Qed.

(** X20: cells beyond the first row's width never affect the CSV text. *)
Theorem X20_csv_ignores_cells_beyond_first_row rawRecords :
  csv_text rawRecords = csv_text (map (firstn (length (hd [] rawRecords))) rawRecords).
Proof.
  destruct rawRecords as [|firstRow rest]; [reflexivity|].
  cbn [map hd]. rewrite firstn_all. unfold csv_text, csv_dataRows.
  set (n := length firstRow).
  assert (Hn : length (csv_headers firstRow) = n) by apply csv_headers_length.
  assert (R : forall l, mapi_from (row_text (fun v => v) (csv_headers firstRow)) 0 (map (firstn n) l)
                        = mapi_from (row_text (fun v => v) (csv_headers firstRow)) 0 l).
  { intros l. rewrite mapi_from_map. apply mapi_from_ext. intros k x _.
    rewrite <- Hn. apply row_text_firstn. }
  destruct (csv_hasHeaders firstRow).
  - rewrite R, length_map. reflexivity.
  - replace (firstRow :: map (firstn n) rest) with (map (firstn n) (firstRow :: rest))
      by (cbn; unfold n; rewrite firstn_all; reflexivity).
    rewrite R, length_map. reflexivity.
Qed.

Lemma contains_nonempty s t : contains s t -> t <> "" -> s <> "".
Proof.
  intros (a & b & ->) Ht. destruct a; cbn; [destruct t; [contradiction|discriminate]|discriminate].
Qed.

Lemma excel_headers_length firstRow : length (excel_headers firstRow) = length firstRow.
Proof. unfold excel_headers. destruct (excel_hasHeaders firstRow); apply length_mapi_from. Qed.

(** X21: every cell of every data row within the header width of a sheet
    appears in the Excel text as a line with its header and value. *)
Theorem X21_excel_prints_every_cell sheets k sheetName firstRow rest i row j h v :
  nth_error sheets k = Some (sheetName, firstRow :: rest) ->
  nth_error (excel_rows (firstRow :: rest)) i = Some row ->
  nth_error (excel_headers firstRow) j = Some h ->
  nth_error row j = Some v ->
  contains (excel_text sheets) ("  " ++ h ++ ": " ++ cell_text v ++ nl).
Proof.
  intros Hs Hr Hh Hv.
  assert (C : contains (concat_all (mapi_from (sheet_text (length sheets)) 0 sheets))
                       ("  " ++ h ++ ": " ++ cell_text v ++ nl)).
  { eapply contains_concat; [eapply in_mapi_from; exact Hs|].
    cbn [sheet_text].
    assert (Hl : Nat.ltb 0 (length (excel_headers firstRow)) = true).
    { apply Nat.ltb_lt. destruct (excel_headers firstRow); [destruct j; discriminate|cbn; lia]. }
    rewrite Hl. do 5 apply contains_app_r. apply contains_app_l.
    repeat apply contains_app_r.
    eapply contains_concat; [eapply in_mapi_from; exact Hr|].
    apply (row_text_contains cell_text _ _ _ j); assumption. }
  unfold excel_text.
  destruct (String.eqb (concat_all (mapi_from (sheet_text (length sheets)) 0 sheets)) "") eqn:E.
  - apply String.eqb_eq in E. exfalso. refine (contains_nonempty _ _ C _ E). discriminate.
  - exact C.
Qed.

Lemma X21_excel_prints_every_cell_witness :
  contains (excel_text stock_sheets) ("  " ++ "count" ++ ": " ++ cell_text (CNum 0) ++ nl).
Proof.
  apply (X21_excel_prints_every_cell stock_sheets 0 "Stock" [CStr "item"; CStr "count"]
           [[CStr "bolts"; CNum 0]] 0 [CStr "bolts"; CNum 0] 1);
    vm_compute; reflexivity.
Defined.

Lemma sheets_text_shape count i sheets :
  (Forall (fun s => snd s = []) sheets /\
   concat_all (mapi_from (sheet_text count) i sheets) = "") \/
  exists r, concat_all (mapi_from (sheet_text count) i sheets) = String "S" r.
Proof.
  revert i; induction sheets as [|[name data] sheets IH]; intros i; cbn.
  - left. split; [constructor|reflexivity].
  - destruct data as [|firstRow rest].
    + destruct (IH (S i)) as [[Hf He] | (r & Hr)].
      * left. split; [constructor; [reflexivity|exact Hf]|exact He].
      * right. exists r. exact Hr.
    + right. eexists. reflexivity.
Qed.

(** X22: the Excel text is "Empty spreadsheet" exactly when every sheet has no
    rows. *)
Theorem X22_excel_empty_iff_no_rows sheets :
  excel_text sheets = "Empty spreadsheet" <-> Forall (fun s => snd s = []) sheets.
Proof.
  unfold excel_text.
  destruct (sheets_text_shape (length sheets) 0 sheets) as [[Hf He] | (r & Hr)].
  - rewrite He. cbn. split; [intros _; exact Hf|reflexivity].
  - rewrite Hr. cbn. split; [discriminate|].
    intros Hf. exfalso.
    assert (Z : forall i l, Forall (fun s => snd s = []) l ->
                concat_all (mapi_from (sheet_text (length sheets)) i l) = "").
    { intros i l; revert i; induction l as [|[n d] l IHl]; intros i Hl; cbn; [reflexivity|].
      inversion Hl as [|? ? Hd Hl']; subst. cbn in Hd. subst d. cbn. apply IHl. exact Hl'. }
    rewrite (Z 0 sheets Hf) in Hr. discriminate.
Qed.

(** ** Word counts and the result of the generator *)

(** X7: calculateWordCount is the sum of the word counts of the goal, the
    context items, the options' names, pros and cons, the risks and the
    decisions, each after citations are removed, plus the word counts of
    the checklist items' owner, task and due date as written. *)
Theorem X7_wordCount_sums_fields (b : Brief) :
  calculateWordCount b =
    word_count (removeCitations (goal b)) + field_words (context b)
    + list_sum (map option_words (options b)) + field_words (risksTradeoffs b)
    + field_words (decisions b) + list_sum (map item_words (actionChecklist b)).
Proof. exact (calculateWordCount_fields b). Qed.

Lemma field_words_app l1 l2 : field_words (l1 ++ l2) = field_words l1 + field_words l2.
Proof. unfold field_words. rewrite map_app, list_sum_app. reflexivity. Qed.

(** X8: truncating a brief keeps a prefix of the context items and nothing
    else changes; the word count drops by exactly the words of the dropped
    context items. *)
Theorem X8_truncate_drops_only_context_words (b : Brief) :
  exists k, truncate b = set_context (firstn k (context b)) b /\
    calculateWordCount b =
      calculateWordCount (truncate b) + field_words (skipn k (context b)).
Proof.
  destruct (truncate_spec b) as (k & _ & Heq & _). exists k. split; [exact Heq|].
  rewrite Heq, !calculateWordCount_fields. cbn [goal context options risksTradeoffs
    decisions actionChecklist set_context].
  rewrite <- (firstn_skipn k (context b)) at 1. rewrite field_words_app. lia.
Qed.

(** X6: a brief returned by generateBriefWithAI comes from a successful API
    call whose content parsed to a well-formed brief; goal, options, risks,
    decisions and checklist are that brief's, and generatedAt is the current
    time. *)
Theorem X6_generated_brief_keeps_fields json_parse now_iso p outcome out :
  generateBriefWithAI json_parse now_iso p outcome = Ok out ->
  exists content b,
    snd (callOpenAIWithRetry MAX_RETRIES outcome) = Ok content /\
    json_parse content = WellFormed b /\
    goal (brief out) = goal b /\ options (brief out) = options b /\
    risksTradeoffs (brief out) = risksTradeoffs b /\ decisions (brief out) = decisions b /\
    actionChecklist (brief out) = actionChecklist b /\ generatedAt out = now_iso.
Proof.
  unfold generateBriefWithAI.
  destruct (snd (callOpenAIWithRetry MAX_RETRIES outcome)) as [c|m]; [|discriminate].
  destruct (json_parse c) as [| |b] eqn:Hj; try discriminate.
  intros H. injection H as <-. exists c, b. split; [reflexivity|]. split; [exact Hj|].
  destruct (ensureSources_spec (uploadedFilenames p) b) as (added & He & _).
  destruct (truncate_spec (ensureSources (uploadedFilenames p) b)) as (k & _ & Ht & _).
  unfold finishBrief. cbn [brief generatedAt]. rewrite Ht, He.
  repeat split; reflexivity.
Qed.

Lemma X6_generated_brief_keeps_fields_witness :
  exists content b,
    snd (callOpenAIWithRetry MAX_RETRIES answers_json) = Ok content /\
    parse_as long_goal_brief content = WellFormed b /\
    goal (brief (finishBrief "now" sample_params long_goal_brief)) = goal b /\
    options (brief (finishBrief "now" sample_params long_goal_brief)) = options b /\
    risksTradeoffs (brief (finishBrief "now" sample_params long_goal_brief)) =
      risksTradeoffs b /\
    decisions (brief (finishBrief "now" sample_params long_goal_brief)) = decisions b /\
    actionChecklist (brief (finishBrief "now" sample_params long_goal_brief)) =
      actionChecklist b /\
    generatedAt (finishBrief "now" sample_params long_goal_brief) = "now".
Proof.
  apply (X6_generated_brief_keeps_fields (parse_as long_goal_brief) "now" sample_params
           answers_json).
  reflexivity.
Defined.

(** ** The upload loop *)

Lemma parseUploads_fold readFileText pdfText extractRawText csvParse readWorkbook files acc1 acc2 :
  let parse f := parseDocument readFileText pdfText extractRawText csvParse readWorkbook
                   (path f) (mimetype f) in
  let ok := filter (fun f => match parse f with Done _ => true | Raised _ => false end) files in
  exists dcs,
    fold_left (fun acc file =>
               let '(documentContents, documentFiles) := acc in
               match parse file with
               | Done content =>
                   ((documentContents ++ [{| dc_filename := originalname file;
                                             dc_content := trim content |}])%list,
                    (documentFiles ++ [{| df_filename := originalname file;
                                          df_fileType := mimetype file;
                                          df_fileSize := size file |}])%list)
               | Raised _ => acc
               end) files (acc1, acc2) =
      ((acc1 ++ dcs)%list,
       (acc2 ++ map (fun f => {| df_filename := originalname f; df_fileType := mimetype f;
                                 df_fileSize := size f |}) ok)%list) /\
    Forall2 (fun d f => dc_filename d = originalname f /\
                        exists c, parse f = Done c /\ dc_content d = trim c) dcs ok.
Proof.
  cbv zeta. revert acc1 acc2. induction files as [|f files IH]; intros acc1 acc2; cbn.
  - exists []. rewrite !app_nil_r. split; [reflexivity|constructor].
  - destruct (parseDocument readFileText pdfText extractRawText csvParse readWorkbook
                (path f) (mimetype f)) as [c|e] eqn:E.
    + destruct (IH (acc1 ++ [{| dc_filename := originalname f; dc_content := trim c |}])%list
                   (acc2 ++ [{| df_filename := originalname f; df_fileType := mimetype f;
                                df_fileSize := size f |}])%list) as (dcs & Hf & Hd).
      exists ({| dc_filename := originalname f; dc_content := trim c |} :: dcs).
      rewrite Hf, <- !app_assoc. split; [reflexivity|].
      constructor; [|exact Hd]. split; [reflexivity|]. exists c. split; [exact E|reflexivity].
    + apply IH.
Qed.

(** X23: the upload loop keeps exactly the files that parse, in order, pairing
    each with its trimmed content and metadata; the document list is empty
    exactly when no file parsed. *)
Theorem X23_uploads_keep_parsed_files_aligned readFileText pdfText extractRawText csvParse
    readWorkbook files :
  let parse f := parseDocument readFileText pdfText extractRawText csvParse readWorkbook
                   (path f) (mimetype f) in
  let ok := filter (fun f => match parse f with Done _ => true | Raised _ => false end) files in
  let r := parseUploads readFileText pdfText extractRawText csvParse readWorkbook files in
  snd r = map (fun f => {| df_filename := originalname f; df_fileType := mimetype f;
                           df_fileSize := size f |}) ok /\
  Forall2 (fun d f => dc_filename d = originalname f /\
                      exists c, parse f = Done c /\ dc_content d = trim c) (fst r) ok /\
  (fst r = [] <-> ok = []).
Proof.
  cbv zeta. unfold parseUploads.
  destruct (parseUploads_fold readFileText pdfText extractRawText csvParse readWorkbook
              files [] []) as (dcs & Hf & Hd).
  cbv zeta in Hf, Hd. rewrite Hf. cbn. split; [reflexivity|]. split; [exact Hd|].
  split; intros H; [subst dcs; inversion Hd; reflexivity|].
  rewrite H in Hd. inversion Hd. reflexivity.
Qed.
